(** * ActorHub Go SDK: the request dispatcher

    A shallow embedding of [client.go], [errors.go] and the request
    structs of [models.go], with the retry loop [doRequest], the single
    attempt [doRequestOnce], the classifier [handleResponse] and the
    endpoint wrappers that validate or rewrite their argument.

    Go's [int] and [time.Duration] are 64-bit two's complement integers;
    they are carried as [Z] and wrapped where the code computes on them.
    Maps ([http.Header], [map[string]interface{}]) are [gmap]s. *)

From Stdlib Require Import ZArith Lia.
From stdpp Require Import base option list strings gmap pretty.

Local Open Scope string_scope.
Local Open Scope list_scope.
Local Open Scope Z_scope.

(** ** Machine integers *)

Module Int64.
Definition modulus : Z := 2 ^ 64.
Definition half_modulus : Z := 2 ^ 63.
Definition max_signed : Z := half_modulus - 1.
Definition min_signed : Z := - half_modulus.

(** The value an [int64] holds after an operation whose exact result
    is [z]. *)
Definition wrap (z : Z) : Z :=
  (z + half_modulus) mod modulus - half_modulus.

Definition mul (x y : Z) : Z := wrap (x * y).

(** [x << s] for a non-negative shift count: counts of 64 and more
    shift every bit out. *)
Definition shl (x s : Z) : Z :=
  if 64 <=? s then 0 else wrap (Z.shiftl x s).

Definition in_range (z : Z) : Prop := min_signed <= z <= max_signed.
End Int64.

(** ** Go values *)

(** A decoded JSON value, as [encoding/json] stores it in an
    [interface{}]. Numbers keep their literal text. *)
#[local] Unset Elimination Schemes.
Inductive any : Type :=
  | ANil
  | ABool (b : bool)
  | ANumber (literal : string)
  | AString (s : string)
  | AArray (l : list any)
  | AMap (m : gmap string any).
#[local] Set Elimination Schemes.

(** A [map[string]interface{}]; [None] is the nil map. *)
Abbreviation gomap := (option (gmap string any)).

(** [m[key]] on a possibly nil map. *)
Definition index (m : gomap) (key : string) : option any :=
  m ≫= (.!! key).

(** [v, ok := m[key].(string)] *)
Definition assert_string (v : option any) : option string :=
  match v with
  | Some (AString s) => Some s
  | _ => None
  end.

(** [v, _ := m[key].(map[string]interface{})] *)
Definition assert_map (v : option any) : gomap :=
  match v with
  | Some (AMap m) => Some m
  | _ => None
  end.

(** [fmt.Sprintf] of a [%d] verb. *)
Definition Sprintf_d (prefix : string) (n : Z) : string := prefix +:+ pretty n.

(** ** Errors (errors.go) *)

Record ActorHubError : Type := {
  Message : string;
  StatusCode : Z;
  ResponseData : gomap;
  RequestID : string
}.

(** What [ctx.Err()] reports once the context is done. *)
Inductive ctxerr : Type := Canceled | DeadlineExceeded.

(** The dynamic types an [error] returned by the client can have. [Base]
    is a bare [*ActorHubError]; [Errorf format cause] is
    [fmt.Errorf(format, err)] around a library error with text [cause];
    [ContextError] is [ctx.Err()]. *)
Inductive error : Type :=
  | AuthenticationError (base : ActorHubError)
  | RateLimitError (base : ActorHubError) (RetryAfter : Z)
  | ValidationError (base : ActorHubError) (Errors : gomap)
  | NotFoundError (base : ActorHubError)
  | ServerError (base : ActorHubError)
  | Base (base : ActorHubError)
  | Errorf (format : string) (cause : string)
  | ContextError (e : ctxerr).

(** [if message is empty { message = dflt }], the test every
    constructor of errors.go starts with. *)
Definition or_default (message dflt : string) : string :=
  match message with
  | EmptyString => dflt
  | _ => message
  end.

Definition NewAuthenticationError (message requestID : string) : error :=
  AuthenticationError
    {| Message := or_default message "Invalid or missing API key";
       StatusCode := 401;
       ResponseData := None;
       RequestID := requestID |}.

Definition NewRateLimitError (message : string) (retryAfter : Z)
    (requestID : string) : error :=
  RateLimitError
    {| Message := or_default message "Rate limit exceeded";
       StatusCode := 429;
       ResponseData := None;
       RequestID := requestID |}
    retryAfter.

Definition NewValidationError (message : string) (errors : gomap)
    (requestID : string) : error :=
  ValidationError
    {| Message := or_default message "Validation error";
       StatusCode := 422;
       ResponseData := None;
       RequestID := requestID |}
    errors.

Definition NewNotFoundError (message requestID : string) : error :=
  NotFoundError
    {| Message := or_default message "Resource not found";
       StatusCode := 404;
       ResponseData := None;
       RequestID := requestID |}.

Definition NewServerError (message : string) (statusCode : Z)
    (requestID : string) : error :=
  ServerError
    {| Message := or_default message "Server error";
       StatusCode := statusCode;
       ResponseData := None;
       RequestID := requestID |}.

(** The type switch of [doRequest]: [case *RateLimitError, *ServerError]. *)
Definition retryable (e : error) : bool :=
  match e with
  | RateLimitError _ _ | ServerError _ => true
  | _ => false
  end.

(** The HTTP failures of the other arms of the classifier. *)
Definition client_failure (e : error) : bool :=
  match e with
  | AuthenticationError _ | NotFoundError _ | ValidationError _ _
  | Base _ => true
  | _ => false
  end.

(** ** Request structs (models.go) *)

(** A [float64], by its IEEE-754 bit pattern. *)
Abbreviation float64 := Z (only parsing).

Record VerifyRequest : Type := {
  vr_ImageURL : string;
  vr_ImageBase64 : string;
  vr_IncludeLicenseOptions : bool
}.

Record ConsentCheckRequest : Type := {
  cc_ImageURL : string;
  cc_ImageBase64 : string;
  cc_FaceEmbedding : list float64;
  cc_Platform : string;
  cc_IntendedUse : string;
  cc_Region : string
}.

Record PurchaseLicenseRequest : Type := {
  IdentityID : string;
  LicenseType : string;
  UsageType : string;
  ProjectName : string;
  ProjectDescription : string;
  DurationDays : Z;
  AllowedPlatforms : list string;
  MaxImpressions : option Z;
  MaxOutputs : option Z
}.

(** [req.DurationDays = d] *)
Definition set_DurationDays (d : Z) (req : PurchaseLicenseRequest)
    : PurchaseLicenseRequest :=
  {| IdentityID := IdentityID req;
     LicenseType := LicenseType req;
     UsageType := UsageType req;
     ProjectName := ProjectName req;
     ProjectDescription := ProjectDescription req;
     DurationDays := d;
     AllowedPlatforms := AllowedPlatforms req;
     MaxImpressions := MaxImpressions req;
     MaxOutputs := MaxOutputs req |}.

(** The values the wrappers pass as [body interface{}]; a nil body is
    [None] at type [option Payload]. *)
Inductive Payload : Type :=
  | VerifyBody (req : VerifyRequest)
  | ConsentBody (req : ConsentCheckRequest)
  | PurchaseBody (req : PurchaseLicenseRequest).

(** ** HTTP messages *)

(** An [http.Header]. Both [Set] and [Get] canonicalise the field name,
    so two spellings meet when their canonical forms agree; the map is
    keyed by the spelling client.go uses for the field. *)
Abbreviation Header := (gmap string (list string)).

Definition Header_Get (h : Header) (key : string) : string :=
  match h !! key with
  | Some (v :: _) => v
  | _ => EmptyString
  end.

Definition Header_Set (key value : string) (h : Header) : Header :=
  <[key := [value]]> h.

(** The arguments [http.NewRequestWithContext] was given, and the
    headers set afterwards. [req_URL] is the URL as the text the request
    was made from; the library parses it, and the transport sees the
    parsed form, which this model does not compute. [req_Body] is
    [None] when the reader was nil. *)
Record Request : Type := {
  req_Method : string;
  req_URL : string;
  req_Header : Header;
  req_Body : option string
}.

(** What [io.ReadAll(resp.Body)] yields. *)
Inductive Body : Type :=
  | Bytes (content : string)
  | Broken (cause : string).

Record Response : Type := {
  resp_StatusCode : Z;
  resp_Header : Header;
  resp_Body : Body
}.

(** ** The client's surroundings *)

(** What a call leaves behind, oldest first. [Sent] and [Waited] are the
    two effects of the dispatcher: a request handed to [httpClient.Do],
    and a [select] on [ctx.Done()] against [time.After(waitTime)], with
    [ctx.Err()] when the context won. [Attempted] is a ghost event: the
    value [doRequestOnce] returned to the loop at an iteration. *)
Inductive Event : Type :=
  | Sent (req : Request)
  | Waited (waitTime : Z) (done : option ctxerr)
  | Attempted (attempt : Z) (err : option error).

(** The standard library and the outside world. None of it is code of
    the repository: the JSON codec, [strconv.Atoi] (value and error,
    the caller drops the error), the validation of
    [http.NewRequestWithContext], the transport behind [httpClient.Do]
    and the context. The last two may answer by everything that happened
    before. *)
Record Env : Type := {
  json_Marshal : Payload -> string + string;
  json_Unmarshal_map : string -> gomap;
  strconv_Atoi : string -> Z * option string;
  http_NewRequest_err : string -> string -> option string;
  httpClient_Do : list Event -> Request -> Response + string;
  ctx_Done : list Event -> Z -> option ctxerr
}.

(** [json.Unmarshal(data, result)] for a destination of type [D]: the
    destination afterwards (the decoder may have written part of it)
    and the error. *)
Class Unmarshaler (D : Type) : Type :=
  json_Unmarshal : string -> D -> D * option string.

(** The zero value of a struct, as [var result T] declares it. *)
Class Zero (D : Type) : Type := zero : D.

(** ** Effects *)

(** A computation reads the history and returns a value with the events
    it adds. *)
Definition M (A : Type) : Type := list Event -> A * list Event.

#[global] Instance M_ret : MRet M := fun A a _ => (a, []).
#[global] Instance M_bind : MBind M := fun A B f m h =>
  let '(a, evs1) := m h in
  let '(b, evs2) := f a (h ++ evs1) in
  (b, evs1 ++ evs2).

Definition emit (ev : Event) : M unit := fun _ => (tt, [ev]).

(** ** The client (client.go) *)

Definition DefaultBaseURL : string := "https://api.actorhub.ai".
Definition DefaultMaxRetries : Z := 3.
Definition Version : string := "0.1.0".
Definition Second : Z := 1000000000.

(** The transport of [httpClient] is [httpClient_Do] of the
    surroundings; the fields the dispatcher reads are kept. *)
Record Client : Type := {
  apiKey : string;
  baseURL : string;
  maxRetries : Z
}.

Definition ClientOption : Type := Client -> Client.

Definition HasSuffix (s suffix : string) : bool :=
  let n := String.length s in
  let k := String.length suffix in
  (k <=? n)%nat && String.eqb (String.substring (n - k) k s) suffix.

Definition TrimSuffix (s suffix : string) : string :=
  if HasSuffix s suffix
  then String.substring 0 (String.length s - String.length suffix) s
  else s.

Definition WithBaseURL (url : string) : ClientOption := fun c =>
  {| apiKey := apiKey c;
     baseURL := TrimSuffix url "/";
     maxRetries := maxRetries c |}.

Definition WithMaxRetries (n : Z) : ClientOption := fun c =>
  {| apiKey := apiKey c; baseURL := baseURL c; maxRetries := n |}.

Definition NewClient (key : string) (opts : list ClientOption) : Client :=
  foldl (fun c opt => opt c)
    {| apiKey := key;
       baseURL := DefaultBaseURL;
       maxRetries := DefaultMaxRetries |}
    opts.

Definition is_empty (s : string) : bool :=
  match s with
  | EmptyString => true
  | _ => false
  end.

(** [message := dflt; if detail, ok := errResp["detail"].(string); ok
    { message = detail }] *)
Definition detail_or (errResp : gomap) (dflt : string) : string :=
  match assert_string (index errResp "detail") with
  | Some detail => detail
  | None => dflt
  end.

(** The wait before the next attempt: [time.Duration(1<<attempt) *
    time.Second], capped at [10 * time.Second]. The shift and the
    product are [int64] operations. *)
Definition backoff (attempt : Z) : Z :=
  let waitTime := Int64.mul (Int64.shl 1 attempt) Second in
  if 10 * Second <? waitTime then 10 * Second else waitTime.

Section Dispatcher.
Context (E : Env).

Definition Do (req : Request) : M (Response + string) := fun h =>
  (httpClient_Do E h req, [Sent req]).

(** [select { case <-ctx.Done(): ...; case <-time.After(waitTime): ... }] *)
Definition select_Done (waitTime : Z) : M (option ctxerr) := fun h =>
  let done := ctx_Done E h waitTime in
  (done, [Waited waitTime done]).

(** [var reqBody io.Reader; if body != nil { jsonBody, err :=
    json.Marshal(body); ... }]: the reader for the request ([None]
    when it stays nil), or the text of the codec's error. *)
Definition marshal_body (body : option Payload) : option string + string :=
  match body with
  | Some b =>
      match json_Marshal E b with
      | inl jsonBody => inl (Some jsonBody)
      | inr cause => inr cause
      end
  | None => inl None
  end.

Section Destination.
Context {D : Type} `{!Unmarshaler D}.

(** [result] is the pointer the caller passed ([None] for nil) with
    the value it points to; the value after the call is returned
    next to the error. *)
Definition handleResponse (resp : Response) (result : option D)
    : option error * option D :=
  let requestID := Header_Get (resp_Header resp) "X-Request-ID" in
  match resp_Body resp with
  | Broken cause =>
      (Some (Errorf "failed to read response body: %w" cause), result)
  | Bytes respBody =>
      if resp_StatusCode resp =? 401 then
        let errResp := json_Unmarshal_map E respBody in
        let message := detail_or errResp "Invalid or missing API key" in
        (Some (NewAuthenticationError message requestID), result)
      else if resp_StatusCode resp =? 404 then
        let errResp := json_Unmarshal_map E respBody in
        let message := detail_or errResp "Resource not found" in
        (Some (NewNotFoundError message requestID), result)
      else if resp_StatusCode resp =? 422 then
        let errResp := json_Unmarshal_map E respBody in
        let message := detail_or errResp "Validation error" in
        let errors := assert_map (index errResp "errors") in
        (Some (NewValidationError message errors requestID), result)
      else if resp_StatusCode resp =? 429 then
        let errResp := json_Unmarshal_map E respBody in
        let message := detail_or errResp "Rate limit exceeded" in
        let ra := Header_Get (resp_Header resp) "Retry-After" in
        let retryAfter :=
          if is_empty ra then 0 else fst (strconv_Atoi E ra) in
        (Some (NewRateLimitError message retryAfter requestID), result)
      else if 500 <=? resp_StatusCode resp then
        let errResp := json_Unmarshal_map E respBody in
        let message :=
          detail_or errResp
            (Sprintf_d "Server error: " (resp_StatusCode resp)) in
        (Some (NewServerError message (resp_StatusCode resp) requestID),
         result)
      else if 400 <=? resp_StatusCode resp then
        let errResp := json_Unmarshal_map E respBody in
        let message :=
          detail_or errResp
            (Sprintf_d "API error: " (resp_StatusCode resp)) in
        (Some (Base {| Message := message;
                       StatusCode := resp_StatusCode resp;
                       ResponseData := errResp;
                       RequestID := requestID |}),
         result)
      else
        match result with
        | Some d =>
            if (0 <? String.length respBody)%nat then
              match json_Unmarshal respBody d with
              | (d', Some cause) =>
                  (Some (Errorf "failed to unmarshal response: %w" cause),
                   Some d')
              | (d', None) => (None, Some d')
              end
            else (None, result)
        | None => (None, result)
        end
  end.

(** The request [doRequestOnce] hands to the transport. *)
Definition build_request (c : Client) (method reqURL : string)
    (reqBody : option string) : Request :=
  {| req_Method := method;
     req_URL := reqURL;
     req_Header :=
       Header_Set "User-Agent" ("actorhub-go/" +:+ Version)
         (Header_Set "Content-Type" "application/json"
            (Header_Set "X-API-Key" (apiKey c) ∅));
     req_Body := reqBody |}.

Definition doRequestOnce (c : Client) (method path : string)
    (body : option Payload) (result : option D)
    : M (option error * option D) :=
  let reqURL := baseURL c +:+ path in
  match marshal_body body with
  | inr cause =>
      mret (Some (Errorf "failed to marshal request body: %w" cause),
            result)
  | inl reqBody =>
      match http_NewRequest_err E method reqURL with
      | Some cause =>
          mret (Some (Errorf "failed to create request: %w" cause),
                result)
      | None =>
          sent ← Do (build_request c method reqURL reqBody);
          match sent with
          | inr cause =>
              mret (Some (Errorf "failed to send request: %w" cause),
                    result)
          | inl resp => mret (handleResponse resp result)
          end
      end
  end.

(** The body of the [for] loop of [doRequest], over the values the
    counter [attempt] still has to take. *)
Fixpoint doRequest_from (c : Client) (method path : string)
    (body : option Payload) (attempts : list Z)
    (lastErr : option error) (result : option D)
    : M (option error * option D) :=
  match attempts with
  | [] => mret (lastErr, result)
  | attempt :: later =>
      '(err, result) ← doRequestOnce c method path body result;
      _ ← emit (Attempted attempt err);
      match err with
      | None => mret (None, result)
      | Some e =>
          if retryable e then
            done ← select_Done (backoff attempt);
            match done with
            | Some ce => mret (Some (ContextError ce), result)
            | None =>
                doRequest_from c method path body later (Some e) result
            end
          else mret (Some e, result)
      end
  end.

(** [for attempt := 0; attempt < c.maxRetries; attempt++] *)
Definition doRequest (c : Client) (method path : string)
    (body : option Payload) (result : option D)
    : M (option error * option D) :=
  doRequest_from c method path body (seqZ 0 (maxRetries c)) None result.

(** [var result T; err := c.doRequest(..., &result)] and the two
    returns every wrapper ends with. *)
Definition dispatch `{!Zero D} (c : Client) (method path : string)
    (body : option Payload) : M (option D * option error) :=
  '(err, result) ← doRequest c method path body (Some zero);
  match err with
  | Some e => mret (None, Some e)
  | None => mret (result, None)
  end.
End Destination.

Section Wrappers.
Context {VerifyResponse IdentityResponse ConsentCheckResponse
         PurchaseResponse : Type}.
Context `{!Unmarshaler VerifyResponse, !Zero VerifyResponse}.
Context `{!Unmarshaler IdentityResponse, !Zero IdentityResponse}.
Context `{!Unmarshaler ConsentCheckResponse, !Zero ConsentCheckResponse}.
Context `{!Unmarshaler PurchaseResponse, !Zero PurchaseResponse}.

Definition Verify (c : Client) (req : VerifyRequest)
    : M (option VerifyResponse * option error) :=
  if is_empty (vr_ImageURL req) && is_empty (vr_ImageBase64 req) then
    mret (None,
          Some (NewValidationError
                  "Must provide image_url or image_base64"
                  None EmptyString))
  else
    dispatch c "POST" "/api/v1/identity/verify" (Some (VerifyBody req)).

Definition GetIdentity (c : Client) (identityID : string)
    : M (option IdentityResponse * option error) :=
  dispatch c "GET" ("/api/v1/identity/" +:+ identityID) None.

Definition CheckConsent (c : Client) (req : ConsentCheckRequest)
    : M (option ConsentCheckResponse * option error) :=
  if is_empty (cc_ImageURL req) && is_empty (cc_ImageBase64 req)
     && (length (cc_FaceEmbedding req) =? 0)%nat then
    mret (None,
          Some (NewValidationError
                  "Must provide image_url, image_base64, or face_embedding"
                  None EmptyString))
  else
    dispatch c "POST" "/api/v1/consent/check" (Some (ConsentBody req)).

(** [req] is a pointer into the caller's memory: the struct it
    points to after the call is the first component of the result. *)
Definition PurchaseLicense (c : Client) (req : PurchaseLicenseRequest)
    : M (PurchaseLicenseRequest
         * (option PurchaseResponse * option error)) :=
  let req :=
    if DurationDays req =? 0 then set_DurationDays 30 req else req in
  r ← dispatch c "POST" "/api/v1/marketplace/license/purchase"
        (Some (PurchaseBody req));
  mret (req, r).
End Wrappers.
End Dispatcher.

(** ** Reading a run *)

(** The outcomes of the attempts, in order. *)
Definition attempts_of (evs : list Event) : list (option error) :=
  omap (fun ev => match ev with Attempted _ o => Some o | _ => None end) evs.

(** The waits between attempts: the duration asked for and how the
    [select] ended. *)
Definition waits_of (evs : list Event) : list (Z * option ctxerr) :=
  omap (fun ev => match ev with Waited w d => Some (w, d) | _ => None end) evs.

(** The requests handed to the transport. *)
Definition sends_of (evs : list Event) : list Request :=
  omap (fun ev => match ev with Sent r => Some r | _ => None end) evs.

(** Every [select] recorded in [evs], a log that continues the history
    [h], ended the way the context answered at that moment. *)
Fixpoint answered (E : Env) (h evs : list Event) : Prop :=
  match evs with
  | [] => True
  | ev :: rest =>
      match ev with
      | Waited w d => d = ctx_Done E h w
      | _ => True
      end
      /\ answered E (h ++ [ev]) rest
  end.

(** The shape of every run of the retry loop, read off its outcomes and
    waits: [Shape attempts lastErr outs ws err] relates the counter
    values left, the error carried into the loop, the outcomes and waits
    the loop adds, and the error it returns. *)
Inductive Shape : list Z -> option error -> list (option error) ->
    list (Z * option ctxerr) -> option error -> Prop :=
  | shape_exhausted lastErr :
      Shape [] lastErr [] [] lastErr
  | shape_success attempt later lastErr :
      Shape (attempt :: later) lastErr [None] [] None
  | shape_fatal attempt later lastErr e :
      retryable e = false ->
      Shape (attempt :: later) lastErr [Some e] [] (Some e)
  | shape_cancelled attempt later lastErr e ce :
      retryable e = true ->
      Shape (attempt :: later) lastErr
        [Some e] [(backoff attempt, Some ce)] (Some (ContextError ce))
  | shape_retry attempt later lastErr e outs ws err :
      retryable e = true ->
      Shape later (Some e) outs ws err ->
      Shape (attempt :: later) lastErr
        (Some e :: outs) ((backoff attempt, None) :: ws) err.

(** ** Scenarios

    Concrete surroundings to run the client in: a scripted server, a
    context that is cancelled during a chosen wait, and stand-ins for
    the codec that are enough for the bodies used below. *)
Module Scenario.
(** One line per struct, with the fields the wrappers look at. *)
Definition encode (p : Payload) : string + string :=
  inl match p with
      | VerifyBody r => "verify " +:+ vr_ImageURL r
      | ConsentBody r => "consent " +:+ cc_ImageURL r
      | PurchaseBody r =>
          "purchase " +:+ IdentityID r +:+ " days "
            +:+ pretty (DurationDays r)
      end.

(** Only the empty object decodes. *)
Definition decode_object (b : string) : gomap :=
  if String.eqb b "{}" then Some ∅ else None.

Definition digit (a : Ascii.ascii) : option Z :=
  let n := Z.of_nat (Ascii.nat_of_ascii a) in
  if (48 <=? n) && (n <=? 57) then Some (n - 48) else None.

Fixpoint digits (acc : Z) (s : string) : option Z :=
  match s with
  | EmptyString => Some acc
  | String a s' =>
      match digit a with
      | Some d => digits (10 * acc + d) s'
      | None => None
      end
  end.

(** Short unsigned decimals, else a syntax error with value 0. *)
Definition atoi (s : string) : Z * option string :=
  match s with
  | EmptyString => (0, Some "invalid syntax")
  | _ =>
      match digits 0 s with
      | Some n => (n, None)
      | None => (0, Some "invalid syntax")
      end
  end.

(** The server answers the n-th request with the n-th entry of
    [script], and with [rest] once the script is over; the context is
    done during the waits [done] says. *)
Definition env (script : list (Response + string))
    (rest : Response + string) (done : nat -> option ctxerr) : Env :=
  {| json_Marshal := encode;
     json_Unmarshal_map := decode_object;
     strconv_Atoi := atoi;
     http_NewRequest_err := fun _ _ => None;
     httpClient_Do := fun h _ =>
       default rest (script !! length (sends_of h));
     ctx_Done := fun h _ => done (length (waits_of h)) |}.

Definition never : nat -> option ctxerr := fun _ => None.
Definition during (k : nat) : nat -> option ctxerr := fun n =>
  if (n =? k)%nat then Some Canceled else None.

Definition answer (status : Z) (headers : Header) (body : string)
    : Response + string :=
  inl {| resp_StatusCode := status;
         resp_Header := headers;
         resp_Body := Bytes body |}.

(** A destination that keeps the text it was given. *)
#[export] Instance text_Unmarshaler : Unmarshaler string :=
  fun b _ => (b, None).
#[export] Instance text_Zero : Zero string := EmptyString.

Definition client (retries : Z) : Client :=
  NewClient "key" [WithMaxRetries retries].

Definition purchase (days : Z) : PurchaseLicenseRequest :=
  {| IdentityID := "id-1";
     LicenseType := "standard";
     UsageType := "commercial";
     ProjectName := "film";
     ProjectDescription := "trailer";
     DurationDays := days;
     AllowedPlatforms := ["web"];
     MaxImpressions := Some 1000;
     MaxOutputs := None |}.
(** A server that answers every request with 200 and the given body,
    and a context that is never done. *)
Definition calm (body : string) : Env := env [] (answer 200 ∅ body) never.

(** A server that fails every request with the given status. *)
Definition failing (status : Z) : Env :=
  env [] (answer status ∅ "{}") never.

(** A server that is down: 503 on every request. *)
Definition down : Env := failing 503.

Definition unavailable : error :=
  ServerError {| Message := "Server error: 503";
                 StatusCode := 503;
                 ResponseData := None;
                 RequestID := EmptyString |}.

(** A server that answers 503 once and then drops the connection. *)
Definition flaky : Env :=
  env [answer 503 ∅ "{}"; inr "connection refused"] (answer 200 ∅ "ok")
    never.

(** A response without a [detail] field, with a request identifier. *)
Definition plain (status : Z) : Response :=
  {| resp_StatusCode := status;
     resp_Header := {["X-Request-ID" := ["r-7"]]};
     resp_Body := Bytes "{}" |}.
End Scenario.


(** ** The claims of the specification that the code does not meet, as
    the specification words them *)
Module Spec.
Section Worded.
Context (E : Env) {D : Type} `{!Unmarshaler D}.

(** The default message the specification documents for a 401. *)
Definition unauthorized_default : string :=
  "Invalid or missing credential".

(** "For a response whose body lacks a [detail] field, status 401 is
    classified as an AuthenticationError carrying the documented
    default message." *)
Definition unauthorized_by_default (resp : Response)
    (result : option D) : Prop :=
  forall b,
    resp_Body resp = Bytes b ->
    index (json_Unmarshal_map E b) "detail" = None ->
    resp_StatusCode resp = 401 ->
    exists base,
      fst (handleResponse E resp result) = Some (AuthenticationError base)
      /\ Message base = unauthorized_default.

(** "A request with no payload carries no Content-Type header." *)
Definition bare_request_has_no_content_type (c : Client)
    (method path : string) (result : option D) (h : list Event) : Prop :=
  forall req,
    req ∈ sends_of (snd (doRequest E c method path None result h)) ->
    req_Header req !! "Content-Type" = None.
(** "When all attempts fail the last classified failure is returned." *)
Definition last_failure_is_returned (c : Client) (method path : string)
    (body : option Payload) (result : option D) (h : list Event) : Prop :=
  let '(err, _, evs) := doRequest E c method path body result h in
  forall e,
    Forall (fun o => o <> None) (attempts_of evs) ->
    last (attempts_of evs) = Some (Some e) ->
    err = Some e.
End Worded.
End Spec.

(** ** The rest of errors.go *)

(** [func (e *ActorHubError) Error() string] *)
Definition Error (e : ActorHubError) : string :=
  let parts := Message e in
  let parts :=
    if 0 <? StatusCode e
    then parts +:+ " (HTTP " +:+ pretty (StatusCode e) +:+ ")"
    else parts in
  if is_empty (RequestID e)
  then parts
  else parts +:+ " [Request ID: " +:+ RequestID e +:+ "]".

(** The part [Error] appends for the status code. *)
Definition status_part (e : ActorHubError) : string :=
  if 0 <? StatusCode e
  then " (HTTP " +:+ pretty (StatusCode e) +:+ ")"
  else EmptyString.

(** The part [Error] appends for the request identifier. *)
Definition request_part (e : ActorHubError) : string :=
  if is_empty (RequestID e)
  then EmptyString
  else " [Request ID: " +:+ RequestID e +:+ "]".

(** The [ActorHubError] a typed error embeds, or a bare one is. *)
Definition embedded (e : error) : option ActorHubError :=
  match e with
  | AuthenticationError b | RateLimitError b _ | ValidationError b _
  | NotFoundError b | ServerError b | Base b => Some b
  | Errorf _ _ | ContextError _ => None
  end.

(** ** The rest of the wrappers of client.go *)

Record MarketplaceListRequest : Type := {
  Query : string;
  Category : string;
  Tags : list string;
  Featured : option bool;
  MinPrice : option float64;
  MaxPrice : option float64;
  SortBy : string;
  Page : Z;
  Limit : Z
}.

(** A [url.Values]. *)
Abbreviation Values := (gmap string (list string)).

(** [params.Set(key, value)] *)
Definition Values_Set (key value : string) (params : Values) : Values :=
  <[key := [value]]> params.

(** [strings.Join(elems, sep)] *)
Fixpoint Join (elems : list string) (sep : string) : string :=
  match elems with
  | [] => EmptyString
  | [x] => x
  | x :: rest => x +:+ sep +:+ Join rest sep
  end.

(** [strconv.FormatBool] *)
Definition FormatBool (b : bool) : string :=
  if b then "true" else "false".

(** [strconv.Itoa] *)
Definition Itoa (n : Z) : string := pretty n.

(** What the query strings need of the standard library:
    [url.Values.Encode], and [strconv.FormatFloat(x, 'f', -1, 64)]. *)
Record QueryLib : Type := {
  Values_Encode : Values -> string;
  FormatFloat : float64 -> string
}.

(** [if cond { params.Set(key, value) }] *)
Definition set_if (cond : bool) (key value : string) (params : Values)
    : Values :=
  if cond then Values_Set key value params else params.

(** [path := base; if len(params) > 0 { path += "?" + params.Encode() }] *)
Definition with_query (Q : QueryLib) (base : string) (params : Values)
    : string :=
  if (0 <? size params)%nat
  then base +:+ "?" +:+ Values_Encode Q params
  else base.

(** The parameters [GetMyLicenses] collects. *)
Definition licenses_params (status : string) (page limit : Z) : Values :=
  let params := ∅ in
  let params := set_if (negb (is_empty status)) "status" status params in
  let params := set_if (0 <? page) "page" (Itoa page) params in
  let params := set_if (0 <? limit) "limit" (Itoa limit) params in
  params.

(** The parameters [ListMarketplace] collects; [req] may be nil. *)
Definition marketplace_params (Q : QueryLib)
    (req : option MarketplaceListRequest) : Values :=
  let params := ∅ in
  match req with
  | None => params
  | Some req =>
      let params :=
        set_if (negb (is_empty (Query req))) "query" (Query req) params in
      let params :=
        set_if (negb (is_empty (Category req))) "category" (Category req)
          params in
      let params :=
        set_if (0 <? length (Tags req))%nat "tags" (Join (Tags req) ",")
          params in
      let params :=
        match Featured req with
        | Some b => Values_Set "featured" (FormatBool b) params
        | None => params
        end in
      let params :=
        match MinPrice req with
        | Some x => Values_Set "min_price" (FormatFloat Q x) params
        | None => params
        end in
      let params :=
        match MaxPrice req with
        | Some x => Values_Set "max_price" (FormatFloat Q x) params
        | None => params
        end in
      let params :=
        set_if (negb (is_empty (SortBy req))) "sort_by" (SortBy req) params in
      let params := set_if (0 <? Page req) "page" (Itoa (Page req)) params in
      let params :=
        set_if (0 <? Limit req) "limit" (Itoa (Limit req)) params in
      params
  end.

Section Listings.
Context (E : Env) (Q : QueryLib).

(** [var result []T; err := c.doRequest(..., &result)] and the two
    returns of the wrappers that return a slice: [nil, err] and
    [result, nil]. [zero] is the nil slice. *)
Definition dispatch_slice {D : Type} `{!Unmarshaler D, !Zero D} (c : Client)
    (method path : string) (body : option Payload) : M (D * option error) :=
  '(err, result) ← doRequest E c method path body (Some zero);
  match err with
  | Some e => mret (zero, Some e)
  | None => mret (default zero result, None)
  end.

Context {Listings Licenses ActorPackResponse : Type}.
Context `{!Unmarshaler Listings, !Zero Listings}.
Context `{!Unmarshaler Licenses, !Zero Licenses}.
Context `{!Unmarshaler ActorPackResponse, !Zero ActorPackResponse}.

Definition ListMarketplace (c : Client) (req : option MarketplaceListRequest)
    : M (Listings * option error) :=
  let params := marketplace_params Q req in
  let path := with_query Q "/api/v1/marketplace/listings" params in
  dispatch_slice c "GET" path None.

Definition GetMyLicenses (c : Client) (status : string) (page limit : Z)
    : M (Licenses * option error) :=
  let params := licenses_params status page limit in
  let path := with_query Q "/api/v1/marketplace/licenses/mine" params in
  dispatch_slice c "GET" path None.

Definition GetActorPack (c : Client) (packID : string)
    : M (option ActorPackResponse * option error) :=
  dispatch E c "GET" ("/api/v1/actor-packs/status/" +:+ packID) None.
End Listings.

(** ** The options of [NewClient], with the HTTP client they share

    [Client.httpClient] is a pointer: [WithHTTPClient] stores the
    caller's pointer and [WithTimeout] writes through whatever pointer
    the client holds at that moment. The HTTP clients live in a heap;
    an option that dereferences a nil pointer panics, which is [None]. *)
Module Config.
(** An [http.Client]: its timeout, and the fields the SDK never reads
    or writes. *)
Record HTTPClient : Type := {
  Timeout : Z;
  Others : string
}.

Definition DefaultTimeout : Z := 30 * Second.

Abbreviation Heap := (gmap nat HTTPClient).

(** The [Client] struct: the fields of [Client] above, and
    [httpClient], nil or an address in the heap. *)
Record t : Type := {
  core : Client;
  httpClient : option nat
}.

Definition ClientOption : Type := t * Heap -> option (t * Heap).

Definition on_core (f : Client -> Client) : ClientOption := fun '(c, H) =>
  Some ({| core := f (core c); httpClient := httpClient c |}, H).

Definition WithBaseURL (url : string) : ClientOption :=
  on_core (WithBaseURL url).

Definition WithMaxRetries (n : Z) : ClientOption :=
  on_core (WithMaxRetries n).

(** [c.httpClient.Timeout = timeout] *)
Definition WithTimeout (timeout : Z) : ClientOption := fun '(c, H) =>
  l ← httpClient c;
  hc ← H !! l;
  Some (c, <[l := {| Timeout := timeout; Others := Others hc |}]> H).

(** [c.httpClient = httpClient] *)
Definition WithHTTPClient (hc : option nat) : ClientOption := fun '(c, H) =>
  Some ({| core := core c; httpClient := hc |}, H).

(** [NewClient] allocates its own [http.Client] with the default
    timeout, then runs the options in order. *)
Definition NewClient (key : string) (opts : list ClientOption) (H : Heap)
    : option (t * Heap) :=
  let l := fresh (dom H) in
  let c := {| core := {| apiKey := key;
                         baseURL := DefaultBaseURL;
                         maxRetries := DefaultMaxRetries |};
              httpClient := Some l |} in
  foldl (fun st opt => st ≫= opt)
    (Some (c, <[l := {| Timeout := DefaultTimeout;
                        Others := EmptyString |}]> H))
    opts.

(** The timeout the client's requests run under. *)
Definition timeout_of (st : t * Heap) : option Z :=
  l ← httpClient st.1;
  Timeout <$> st.2 !! l.

End Config.

(** The options [NewClient] is given come from the two constructors
    modelled on [Client]. *)
Definition from_the_SDK (opt : ClientOption) : Prop :=
  (exists url, opt = WithBaseURL url) \/ (exists n, opt = WithMaxRetries n).

(** An option of the SDK, next to what it does to the fields of
    [Client] above. *)
Inductive erases : Config.ClientOption -> ClientOption -> Prop :=
  | erases_base url : erases (Config.WithBaseURL url) (WithBaseURL url)
  | erases_retries n : erases (Config.WithMaxRetries n) (WithMaxRetries n)
  | erases_timeout timeout : erases (Config.WithTimeout timeout) id
  | erases_client hc : erases (Config.WithHTTPClient hc) id.

(** ** More scenarios *)
Module Cases.
Import Scenario.

(** A server whose error bodies all decode to an object with the given
    [detail]. *)
Definition detailed (status : Z) (d : string) : Env :=
  {| json_Marshal := encode;
     json_Unmarshal_map := fun _ => Some {["detail" := AString d]};
     strconv_Atoi := atoi;
     http_NewRequest_err := fun _ _ => None;
     httpClient_Do := fun _ _ => answer status ∅ "{...}";
     ctx_Done := fun _ _ => None |}.

(** A 503 whose body breaks off while it is read. *)
Definition cut_off : Response :=
  {| resp_StatusCode := 503;
     resp_Header := ∅;
     resp_Body := Broken "unexpected EOF" |}.

Definition unreadable : Env := env [] (inl cut_off) never.

(** A server that is down twice and then answers. *)
Definition recovering : Env :=
  env [answer 503 ∅ "{}"; answer 429 ∅ "{}"] (answer 200 ∅ "fine") never.

(** Pairs joined by ampersands, in the order of the map. *)
Definition query : QueryLib :=
  {| Values_Encode := fun params =>
       Join ((fun kv => kv.1 +:+ "=" +:+ Join kv.2 ",")
               <$> map_to_list params) "&";
     FormatFloat := pretty |}.

Definition nothing_set : MarketplaceListRequest :=
  {| Query := EmptyString;
     Category := EmptyString;
     Tags := [];
     Featured := None;
     MinPrice := None;
     MaxPrice := None;
     SortBy := EmptyString;
     Page := 0;
     Limit := -1 |}.

(** The caller's own HTTP client, at address 0. *)
Definition own : Config.HTTPClient :=
  {| Config.Timeout := 5 * Second; Config.Others := "proxy" |}.

Definition heap : Config.Heap := {[ 0%nat := own ]}.

(** A server that is down, and a caller who gives up during the first
    wait. *)
Definition abandoned : Env := env [] (answer 503 ∅ "{}") (during 0).

(** A codec that refuses every payload. *)
Definition unencodable : Env :=
  {| json_Marshal := fun _ => inr "unsupported value: NaN";
     json_Unmarshal_map := decode_object;
     strconv_Atoi := atoi;
     http_NewRequest_err := fun _ _ => None;
     httpClient_Do := fun _ _ => answer 200 ∅ "ok";
     ctx_Done := fun _ _ => None |}.

Definition embedded_face : ConsentCheckRequest :=
  {| cc_ImageURL := EmptyString;
     cc_ImageBase64 := EmptyString;
     cc_FaceEmbedding := [9221120237041090560];
     cc_Platform := "runway";
     cc_IntendedUse := "video";
     cc_Region := "US" |}.
End Cases.

(** * Properties *)

(** ** Reading a concatenated log *)

Lemma attempts_of_app evs1 evs2 :
  attempts_of (evs1 ++ evs2) = attempts_of evs1 ++ attempts_of evs2.
Proof. apply omap_app. Qed.

Lemma waits_of_app evs1 evs2 :
  waits_of (evs1 ++ evs2) = waits_of evs1 ++ waits_of evs2.
Proof. apply omap_app. Qed.

Lemma sends_of_app evs1 evs2 :
  sends_of (evs1 ++ evs2) = sends_of evs1 ++ sends_of evs2.
Proof. apply omap_app. Qed.

(** ** One attempt *)

Section Attempt.
Context (E : Env) {D : Type} `{!Unmarshaler D}.
Implicit Types (c : Client) (body : option Payload) (result : option D).
Implicit Types (h evs : list Event) (err : option error).

(** What a single attempt does to the log: nothing, or one send. *)
Lemma doRequestOnce_cases c method path body result h :
  (exists cause,
      marshal_body E body = inr cause
      /\ doRequestOnce E c method path body result h
         = (Some (Errorf "failed to marshal request body: %w" cause),
            result, []))
  \/ (exists reqBody cause,
      marshal_body E body = inl reqBody
      /\ http_NewRequest_err E method (baseURL c +:+ path) = Some cause
      /\ doRequestOnce E c method path body result h
         = (Some (Errorf "failed to create request: %w" cause), result, []))
  \/ (exists reqBody,
      let req := build_request c method (baseURL c +:+ path) reqBody in
      marshal_body E body = inl reqBody
      /\ http_NewRequest_err E method (baseURL c +:+ path) = None
      /\ doRequestOnce E c method path body result h
         = (match httpClient_Do E h req with
            | inr cause =>
                (Some (Errorf "failed to send request: %w" cause), result)
            | inl resp => handleResponse E resp result
            end, [Sent req])).
Proof.
  unfold doRequestOnce.
  destruct (marshal_body E body) as [reqBody|cause]; [|left; eauto].
  right.
  destruct (http_NewRequest_err E method (baseURL c +:+ path)) as [cause|];
    [left; eauto|].
  right. exists reqBody. split_and!; [done..|].
  unfold mbind, M_bind, Do, mret, M_ret.
  by destruct (httpClient_Do E h _).
Qed.

Lemma doRequestOnce_quiet c method path body result h err result' evs :
  doRequestOnce E c method path body result h = (err, result', evs) ->
  attempts_of evs = [] /\ waits_of evs = [].
Proof.
  intros Hrun.
  destruct (doRequestOnce_cases c method path body result h)
    as [(? & _ & Heq)|[(? & ? & _ & _ & Heq)|(? & _ & _ & Heq)]];
    rewrite Heq in Hrun; by simplify_eq.
Qed.

Lemma doRequestOnce_sends c method path body result h err result' evs :
  doRequestOnce E c method path body result h = (err, result', evs) ->
  Forall (fun req => exists reqBody,
              marshal_body E body = inl reqBody
              /\ req = build_request c method (baseURL c +:+ path) reqBody)
         (sends_of evs).
Proof.
  intros Hrun.
  destruct (doRequestOnce_cases c method path body result h)
    as [(? & _ & Heq)|[(? & ? & _ & _ & Heq)|(reqBody & Hm & _ & Heq)]];
    rewrite Heq in Hrun; simplify_eq; simpl; eauto.
Qed.
End Attempt.

(** ** The retry loop *)

Section Loop.
Context (E : Env) {D : Type} `{!Unmarshaler D}.
Implicit Types (c : Client) (body : option Payload) (result : option D).
Implicit Types (h evs : list Event) (err lastErr : option error).
Implicit Types (attempts later : list Z).

Lemma doRequest_from_nil c method path body lastErr result h :
  doRequest_from E c method path body [] lastErr result h
  = (lastErr, result, []).
Proof. reflexivity. Qed.

(** One iteration, by what the attempt returned and how the wait
    ended. *)
Lemma doRequest_from_cons c method path body attempt later lastErr result h
    err result1 evs1 :
  doRequestOnce E c method path body result h = (err, result1, evs1) ->
  doRequest_from E c method path body (attempt :: later) lastErr result h
  = match err with
    | None => (None, result1, evs1 ++ [Attempted attempt None])
    | Some e =>
        if retryable e then
          let h1 := h ++ evs1 ++ [Attempted attempt err] in
          match ctx_Done E h1 (backoff attempt) with
          | Some ce =>
              (Some (ContextError ce), result1,
               evs1 ++ [Attempted attempt err;
                        Waited (backoff attempt) (Some ce)])
          | None =>
              let '(r, evs2) :=
                doRequest_from E c method path body later (Some e) result1
                  (h1 ++ [Waited (backoff attempt) None]) in
              (r, evs1 ++ [Attempted attempt err;
                           Waited (backoff attempt) None] ++ evs2)
          end
        else (Some e, result1, evs1 ++ [Attempted attempt err])
    end.
Proof.
  intros Hrun. cbn [doRequest_from].
  unfold mbind, M_bind, mret, M_ret, emit, select_Done. rewrite Hrun.
  destruct err as [e|]; [|by rewrite app_nil_r].
  destruct (retryable e); [|by rewrite app_nil_r].
  cbn zeta. rewrite <- !(assoc_L (++)).
  destruct (ctx_Done E _ _) as [ce|]; [by rewrite app_nil_r|].
  by destruct (doRequest_from _ _ _ _ _ _ _ _ _) as [r evs2].
Qed.

Lemma doRequest_from_shape c method path body attempts lastErr result h
    err result' evs :
  doRequest_from E c method path body attempts lastErr result h
  = (err, result', evs) ->
  Shape attempts lastErr (attempts_of evs) (waits_of evs) err.
Proof.
  revert lastErr result h err result' evs.
  induction attempts as [|attempt later IH];
    intros lastErr result h err result' evs Hrun.
  { rewrite doRequest_from_nil in Hrun. simplify_eq. constructor. }
  destruct (doRequestOnce E c method path body result h)
    as [[err1 result1] evs1] eqn:Honce.
  rewrite (doRequest_from_cons _ _ _ _ _ _ _ _ _ _ _ _ Honce) in Hrun.
  destruct (doRequestOnce_quiet E _ _ _ _ _ _ _ _ _ Honce) as [Ha Hw].
  destruct err1 as [e|].
  2:{ simplify_eq. rewrite attempts_of_app, waits_of_app, Ha, Hw.
      constructor. }
  destruct (retryable e) eqn:Hretry.
  2:{ simplify_eq. rewrite attempts_of_app, waits_of_app, Ha, Hw.
      by constructor. }
  cbn zeta in Hrun.
  destruct (ctx_Done E _ _) as [ce|].
  { simplify_eq. rewrite attempts_of_app, waits_of_app, Ha, Hw.
    by constructor. }
  destruct (doRequest_from _ _ _ _ _ _ _ _ _) as [[err2 result2] evs2] eqn:Hrest.
  simplify_eq.
  rewrite attempts_of_app, waits_of_app, Ha, Hw.
  cbn [app]. change (Attempted attempt (Some e) :: Waited (backoff attempt) None :: evs2)
    with ([Attempted attempt (Some e); Waited (backoff attempt) None] ++ evs2).
  rewrite attempts_of_app, waits_of_app. cbn.
  constructor; [done|]. eapply IH, Hrest.
Qed.
End Loop.

(** ** What the shape of a run implies *)

Section Shapes.
Implicit Types (attempts : list Z) (lastErr err : option error).
Implicit Types (outs : list (option error)) (ws : list (Z * option ctxerr)).

Lemma Shape_length attempts lastErr outs ws err :
  Shape attempts lastErr outs ws err ->
  (length outs <= length attempts)%nat /\ (length ws <= length outs)%nat.
Proof. induction 1; cbn; lia. Qed.

Lemma Shape_inner_retryable attempts lastErr outs ws err i o :
  Shape attempts lastErr outs ws err ->
  outs !! i = Some o -> (S i < length outs)%nat ->
  exists e, o = Some e /\ retryable e = true.
Proof.
  intros HS. revert i.
  induction HS as [| | | |attempt later lastErr e outs ws err He HS IH];
    intros i Hi Hlt; cbn in Hlt; try lia.
  destruct i as [|i]; cbn in Hi.
  - simplify_eq. eauto.
  - apply (IH i); [done|lia].
Qed.

Lemma Shape_final attempts lastErr outs ws err i o :
  Shape attempts lastErr outs ws err ->
  outs !! i = Some o ->
  from_option retryable false o = false ->
  length outs = S i /\ length ws = i /\ err = o.
Proof.
  intros HS. revert i.
  induction HS as [| | | |attempt later lastErr e outs ws err He HS IH];
    intros i Hi Ho.
  - done.
  - destruct i; cbn in Hi; by simplify_eq.
  - destruct i; cbn in Hi; by simplify_eq.
  - destruct i; cbn in Hi; simplify_eq. cbn in Ho. congruence.
  - destruct i as [|i]; cbn in Hi.
    + simplify_eq. cbn in Ho. congruence.
    + destruct (IH i Hi Ho) as (Hl & Hw & ->). cbn. by rewrite Hl, Hw.
Qed.

Lemma Shape_cancelled attempts lastErr outs ws err w ce :
  Shape attempts lastErr outs ws err ->
  (w, Some ce) ∈ ws ->
  err = Some (ContextError ce)
  /\ exists e, last outs = Some (Some e) /\ retryable e = true.
Proof.
  induction 1 as [| | | |attempt later lastErr e outs ws err He HS IH];
    intros Hin.
  - by apply elem_of_nil in Hin.
  - by apply elem_of_nil in Hin.
  - by apply elem_of_nil in Hin.
  - apply list_elem_of_singleton in Hin. simplify_eq. eauto.
  - apply elem_of_cons in Hin as [?|Hin]; [done|].
    destruct (IH Hin) as (-> & e' & Hlast & He').
    split; [done|]. exists e'. split; [|done].
    destruct outs; [done|]. done.
Qed.

Lemma Shape_uncancelled attempts lastErr outs ws err :
  Shape attempts lastErr outs ws err ->
  Forall (fun w => w.2 = None) ws ->
  err = from_option id lastErr (last outs).
Proof.
  induction 1 as [| | | |attempt later lastErr e outs ws err He HS IH];
    intros Hws; try done.
  - by apply Forall_cons in Hws as [? _].
  - apply Forall_cons in Hws as [_ Hws]. rewrite (IH Hws).
    destruct outs as [|o outs]; [done|].
    change (last (Some e :: o :: outs)) with (last (o :: outs)).
    by destruct (last_is_Some (o :: outs)) as [_ [x ->]].
Qed.

Lemma Shape_waits attempts lastErr outs ws err i w d :
  Shape attempts lastErr outs ws err ->
  ws !! i = Some (w, d) ->
  exists attempt, attempts !! i = Some attempt /\ w = backoff attempt.
Proof.
  intros HS. revert i.
  induction HS as [| | | |attempt later lastErr e outs ws err He HS IH];
    intros i Hi; try done.
  - destruct i; [|done]. cbn in Hi. simplify_eq. eauto.
  - destruct i as [|i]; cbn in Hi.
    + simplify_eq. eauto.
    + apply (IH i Hi).
Qed.
End Shapes.

(** ** Requests of a whole call *)

Section Sends.
Context (E : Env) {D : Type} `{!Unmarshaler D}.

(** Every request of a call is the one [doRequestOnce] builds from
    the arguments of the call. *)
Lemma doRequest_from_sends c method path body attempts lastErr
    (result : option D) h err result' evs :
  doRequest_from E c method path body attempts lastErr result h
  = (err, result', evs) ->
  Forall (fun req => exists reqBody,
              marshal_body E body = inl reqBody
              /\ req = build_request c method (baseURL c +:+ path) reqBody)
         (sends_of evs).
Proof.
  revert lastErr result h err result' evs.
  induction attempts as [|attempt later IH];
    intros lastErr result h err result' evs Hrun.
  { rewrite doRequest_from_nil in Hrun. simplify_eq. constructor. }
  destruct (doRequestOnce E c method path body result h)
    as [[err1 result1] evs1] eqn:Honce.
  erewrite doRequest_from_cons in Hrun by exact Honce.
  pose proof Honce as Hs. apply doRequestOnce_sends in Hs.
  destruct err1 as [e|];
    [|simplify_eq; rewrite sends_of_app, app_nil_r; exact Hs].
  destruct (retryable e);
    [|simplify_eq; rewrite sends_of_app, app_nil_r; exact Hs].
  cbn zeta in Hrun.
  destruct (ctx_Done E _ _) as [ce|];
    [simplify_eq; rewrite sends_of_app, app_nil_r; exact Hs|].
  destruct (doRequest_from _ _ _ _ _ _ _ _ _)
    as [[err2 result2] evs2] eqn:Hrest.
  simplify_eq. rewrite sends_of_app. apply Forall_app. split; [done|].
  cbn. eapply IH, Hrest.
Qed.

Lemma dispatch_sends `{!Zero D} c method path body h r evs :
  dispatch E c method path body h = (r, evs) ->
  Forall (fun req => exists reqBody,
              marshal_body E body = inl reqBody
              /\ req = build_request c method (baseURL c +:+ path) reqBody)
         (sends_of evs).
Proof.
  unfold dispatch, doRequest, mbind, M_bind, mret, M_ret.
  destruct (doRequest_from _ _ _ _ _ _ _ _ _)
    as [[err result'] evs1] eqn:Hrun.
  intros Heq.
  assert (evs = evs1) as ->.
  { destruct err; simplify_eq; by rewrite app_nil_r. }
  eapply doRequest_from_sends, Hrun.
Qed.
End Sends.

(** ** The backoff *)

Lemma Int64_wrap_small z : Int64.in_range z -> Int64.wrap z = z.
Proof.
  unfold Int64.in_range, Int64.wrap, Int64.min_signed, Int64.max_signed,
    Int64.half_modulus, Int64.modulus.
  intros Hz. rewrite Z.mod_small; lia.
Qed.

(** Up to the 34th retry the product fits an [int64] and the wait is the
    capped power of two. *)
Lemma backoff_small attempt :
  0 <= attempt <= 33 ->
  backoff attempt = Z.min (2 ^ attempt) 10 * Second.
Proof.
  intros Ha. unfold backoff, Int64.mul, Int64.shl.
  assert (1 <= 2 ^ attempt <= 2 ^ 33) as Hp.
  { split; [apply (Z.pow_le_mono_r 2 0 attempt); lia
           |apply Z.pow_le_mono_r; lia]. }
  destruct (Z.leb_spec 64 attempt) as [?|_]; [lia|].
  rewrite Z.shiftl_1_l.
  rewrite (Int64_wrap_small (2 ^ attempt)).
  2:{ unfold Int64.in_range, Int64.min_signed, Int64.max_signed,
        Int64.half_modulus. lia. }
  rewrite Int64_wrap_small.
  2:{ unfold Int64.in_range, Int64.min_signed, Int64.max_signed,
        Int64.half_modulus, Second. lia. }
  unfold Second.
  destruct (Z.ltb_spec (10 * 1000000000) (2 ^ attempt * 1000000000)); lia.
Qed.

(** * The claims *)

Import Scenario.

Section Classifier.
Context (E : Env) {D : Type} `{!Unmarshaler D}.

(** C1 (as amended): for a response whose body lacks a [detail] field,
    [handleResponse] returns an AuthenticationError for 401, a
    NotFoundError for 404, a ValidationError for 422, a RateLimitError
    for 429 and a ServerError for any status of 500 and more, each
    with its default message: "Invalid or missing API key", "Resource
    not found", "Validation error", "Rate limit exceeded" and "Server
    error: " followed by the status in decimal. The destination is
    left as it was. *)
Theorem handleResponse_default_messages (resp : Response)
    (result : option D) (b : string) :
  resp_Body resp = Bytes b ->
  index (json_Unmarshal_map E b) "detail" = None ->
  let status := resp_StatusCode resp in
  let failure message code :=
    {| Message := message;
       StatusCode := code;
       ResponseData := None;
       RequestID := Header_Get (resp_Header resp) "X-Request-ID" |} in
  (status = 401 ->
   handleResponse E resp result
   = (Some (AuthenticationError (failure "Invalid or missing API key" 401)),
      result))
  /\ (status = 404 ->
      handleResponse E resp result
      = (Some (NotFoundError (failure "Resource not found" 404)), result))
  /\ (status = 422 ->
      exists errors,
        handleResponse E resp result
        = (Some (ValidationError (failure "Validation error" 422) errors),
           result))
  /\ (status = 429 ->
      exists retryAfter,
        handleResponse E resp result
        = (Some (RateLimitError (failure "Rate limit exceeded" 429)
                   retryAfter),
           result))
  /\ (500 <= status ->
      handleResponse E resp result
      = (Some (ServerError
                 (failure ("Server error: " +:+ pretty status) status)),
         result)).
Proof.
  intros Hbody Hdetail status failure. subst status failure.
  unfold handleResponse, detail_or. rewrite Hbody, Hdetail. cbn [assert_string].
  split_and!.
  - intros ->. reflexivity.
  - intros ->. reflexivity.
  - intros ->. eexists. reflexivity.
  - intros ->. eexists. reflexivity.
  - intros Hs.
    destruct (Z.eqb_spec (resp_StatusCode resp) 401) as [?|_]; [lia|].
    destruct (Z.eqb_spec (resp_StatusCode resp) 404) as [?|_]; [lia|].
    destruct (Z.eqb_spec (resp_StatusCode resp) 422) as [?|_]; [lia|].
    destruct (Z.eqb_spec (resp_StatusCode resp) 429) as [?|_]; [lia|].
    destruct (Z.leb_spec 500 (resp_StatusCode resp)) as [_|?]; [|lia].
    reflexivity.
Qed.

(** C7: a response with a status below 400 and an empty body, decoded
    into a destination that is not nil, is a success and leaves the
    destination as it was. *)
Theorem handleResponse_empty_success (resp : Response) (d : D) :
  resp_StatusCode resp < 400 ->
  resp_Body resp = Bytes EmptyString ->
  handleResponse E resp (Some d) = (None, Some d).
Proof.
  intros Hs Hbody. unfold handleResponse. rewrite Hbody.
  destruct (Z.eqb_spec (resp_StatusCode resp) 401) as [?|_]; [lia|].
  destruct (Z.eqb_spec (resp_StatusCode resp) 404) as [?|_]; [lia|].
  destruct (Z.eqb_spec (resp_StatusCode resp) 422) as [?|_]; [lia|].
  destruct (Z.eqb_spec (resp_StatusCode resp) 429) as [?|_]; [lia|].
  destruct (Z.leb_spec 500 (resp_StatusCode resp)) as [?|_]; [lia|].
  destruct (Z.leb_spec 400 (resp_StatusCode resp)) as [?|_]; [lia|].
  reflexivity.
Qed.
End Classifier.

Lemma handleResponse_default_messages_witness :
  handleResponse (calm "ok") (plain 401) (Some "kept")
  = (Some (AuthenticationError {| Message := "Invalid or missing API key";
                                  StatusCode := 401;
                                  ResponseData := None;
                                  RequestID := "r-7" |}),
     Some "kept")
  /\ handleResponse (calm "ok") (plain 503) (Some "kept")
     = (Some (ServerError {| Message := "Server error: 503";
                             StatusCode := 503;
                             ResponseData := None;
                             RequestID := "r-7" |}),
        Some "kept").
Proof.
  split.
  - apply (handleResponse_default_messages (calm "ok") (plain 401)
             (Some "kept") "{}"); reflexivity.
  - apply (handleResponse_default_messages (calm "ok") (plain 503)
             (Some "kept") "{}"); [reflexivity | reflexivity | cbn; lia].
Defined.

(** C1, as the specification words it, fails at a 401 whose body is the
    empty object: the message is "Invalid or missing API key". *)
Lemma unauthorized_default_differs :
  ~ Spec.unauthorized_by_default (calm "ok") (plain 401) (Some "kept").
Proof.
  intros Hspec.
  destruct (Hspec "{}" eq_refl eq_refl eq_refl) as (base & Hret & Hmsg).
  vm_compute in Hret. injection Hret as <-. discriminate Hmsg.
Qed.

Lemma handleResponse_empty_success_witness :
  handleResponse (calm "ok")
    {| resp_StatusCode := 204; resp_Header := ∅;
       resp_Body := Bytes EmptyString |}
    (Some "kept")
  = (None, Some "kept").
Proof.
  apply (handleResponse_empty_success (calm "ok")); [cbn; lia | reflexivity].
Defined.

Section Endpoints.
Context (E : Env).
Context {VerifyResponse ConsentCheckResponse PurchaseResponse : Type}.
Context `{!Unmarshaler VerifyResponse, !Zero VerifyResponse}.
Context `{!Unmarshaler ConsentCheckResponse, !Zero ConsentCheckResponse}.
Context `{!Unmarshaler PurchaseResponse, !Zero PurchaseResponse}.

(** C8: [Verify] of a request with neither image URL nor inline image,
    and [CheckConsent] of a request with neither of them nor a face
    embedding, return a ValidationError and leave no event behind: no
    request reaches the transport. *)
Theorem validation_fails_fast (c : Client) (h : list Event) :
  (forall req : VerifyRequest,
      vr_ImageURL req = EmptyString ->
      vr_ImageBase64 req = EmptyString ->
      Verify (VerifyResponse := VerifyResponse) E c req h
      = (None,
         Some (ValidationError
                 {| Message := "Must provide image_url or image_base64";
                    StatusCode := 422;
                    ResponseData := None;
                    RequestID := EmptyString |}
                 None),
         []))
  /\ (forall req : ConsentCheckRequest,
      cc_ImageURL req = EmptyString ->
      cc_ImageBase64 req = EmptyString ->
      cc_FaceEmbedding req = [] ->
      CheckConsent (ConsentCheckResponse := ConsentCheckResponse) E c req h
      = (None,
         Some (ValidationError
                 {| Message :=
                      "Must provide image_url, image_base64, or face_embedding";
                    StatusCode := 422;
                    ResponseData := None;
                    RequestID := EmptyString |}
                 None),
         [])).
Proof.
  split.
  - intros req Hurl Hb64. unfold Verify. by rewrite Hurl, Hb64.
  - intros req Hurl Hb64 Hface. unfold CheckConsent.
    by rewrite Hurl, Hb64, Hface.
Qed.

End Endpoints.

Section ContentType.
Context (E : Env) {D : Type} `{!Unmarshaler D}.

(** C9 (as amended): every request a call hands to the transport
    carries the header [Content-Type: application/json], whether the
    call has a payload or not. *)
Theorem every_request_has_content_type (c : Client) (method path : string)
    (body : option Payload) (result : option D) (h : list Event) :
  Forall (fun req =>
            req_Header req !! "Content-Type" = Some ["application/json"])
         (sends_of (snd (doRequest E c method path body result h))).
Proof.
  destruct (doRequest E c method path body result h)
    as [[err result'] evs] eqn:Hrun.
  apply doRequest_from_sends in Hrun. cbn [snd].
  eapply Forall_impl; [exact Hrun|].
  intros req (reqBody & _ & ->). cbn. unfold Header_Set.
  rewrite lookup_insert_ne by done. by rewrite lookup_insert_eq.
Qed.
End ContentType.

Lemma validation_fails_fast_witness :
  let bare := {| vr_ImageURL := EmptyString;
                 vr_ImageBase64 := EmptyString;
                 vr_IncludeLicenseOptions := true |} in
  let blank := {| cc_ImageURL := EmptyString;
                  cc_ImageBase64 := EmptyString;
                  cc_FaceEmbedding := [];
                  cc_Platform := "runway";
                  cc_IntendedUse := "video";
                  cc_Region := "US" |} in
  snd (Verify (VerifyResponse := string) (calm "ok") (client 3) bare []) = []
  /\ snd (CheckConsent (ConsentCheckResponse := string) (calm "ok")
            (client 3) blank []) = []
  /\ snd (Verify (VerifyResponse := string) (calm "ok") (client 3)
            {| vr_ImageURL := "https://example.com/image.jpg";
               vr_ImageBase64 := EmptyString;
               vr_IncludeLicenseOptions := true |} [])
     <> [].
Proof.
  intros bare blank.
  destruct (validation_fails_fast (VerifyResponse := string)
              (ConsentCheckResponse := string) (calm "ok") (client 3) [])
    as [Hverify Hconsent].
  split_and!.
  - by rewrite (Hverify bare eq_refl eq_refl).
  - by rewrite (Hconsent blank eq_refl eq_refl eq_refl).
  - vm_compute. discriminate.
Defined.

Lemma every_request_has_content_type_witness :
  let sent := sends_of
                (snd (doRequest (calm "ok") (client 3) "GET"
                        "/api/v1/identity/abc" None (Some "kept") [])) in
  length sent = 1%nat
  /\ Forall (fun req =>
               req_Header req !! "Content-Type" = Some ["application/json"])
            sent.
Proof.
  intros sent. split; [vm_compute; reflexivity|].
  apply (every_request_has_content_type (calm "ok")).
Defined.

(** C9, as the specification words it, fails for a GET without payload:
    the request that leaves carries the header. *)
Lemma bare_request_has_content_type :
  ~ Spec.bare_request_has_no_content_type (calm "ok") (client 3) "GET"
      "/api/v1/identity/abc" (Some "kept") [].
Proof.
  intros Hspec.
  pose (req := build_request (client 3) "GET"
                 (baseURL (client 3) +:+ "/api/v1/identity/abc") None).
  assert (req_Header req !! "Content-Type" = None) as Habsent.
  { apply Hspec. vm_compute. apply list_elem_of_singleton. reflexivity. }
  vm_compute in Habsent. discriminate Habsent.
Qed.

Section Retry.
Context (E : Env) {D : Type} `{!Unmarshaler D}.
Implicit Types (c : Client) (body : option Payload) (result : option D).
Implicit Types (h evs : list Event) (err : option error).

Lemma doRequest_shape c method path body result h err result' evs :
  doRequest E c method path body result h = (err, result', evs) ->
  Shape (seqZ 0 (maxRetries c)) None (attempts_of evs) (waits_of evs) err.
Proof. apply doRequest_from_shape. Qed.

(** C5 (what the code does): with [maxRetries] of 0 or less the loop
    body never runs; [doRequest] makes no attempt, leaves no event and
    returns a nil error with the destination untouched. *)
Theorem doRequest_without_attempt c method path body result h :
  maxRetries c <= 0 ->
  doRequest E c method path body result h = (None, result, []).
Proof. intros Hn. unfold doRequest. by rewrite seqZ_nil. Qed.

(** X1: the wait after the attempt numbered [i] is [backoff i]: it is
    computed from the counter alone, whatever the responses and their
    headers were; and for the first 34 waits it lasts
    [min (2 ^ i) 10] seconds. *)
Theorem backoff_schedule c method path body result h err result' evs i w d :
  doRequest E c method path body result h = (err, result', evs) ->
  waits_of evs !! i = Some (w, d) ->
  w = backoff (Z.of_nat i)
  /\ ((i <= 33)%nat -> w = Z.min (2 ^ Z.of_nat i) 10 * Second).
Proof.
  intros Hrun Hi. apply doRequest_shape in Hrun.
  destruct (Shape_waits _ _ _ _ _ _ _ _ Hrun Hi) as (attempt & Ha & ->).
  assert (attempt = Z.of_nat i) as ->.
  { destruct (decide (Z.of_nat i < maxRetries c)) as [Hlt|Hge].
    - rewrite lookup_seqZ_lt in Ha by done. by simplify_eq.
    - rewrite lookup_seqZ_ge in Ha by lia. done. }
  split; [done|]. intros Hle. apply backoff_small. lia.
Qed.
End Retry.

Section RetryAfter.
Context (E : Env) {D : Type} `{!Unmarshaler D}.

(** X2: for a 429 whose body can be read, the error is a RateLimitError
    with status 429 whose message comes from the body alone and whose
    request identifier comes from [X-Request-ID] alone; the
    [Retry-After] header ends in the field [RetryAfter] and nowhere
    else: 0 without the header, and what [strconv.Atoi] returns for its
    text otherwise. *)
Theorem rate_limit_records_retry_after (resp : Response)
    (result : option D) (b : string) :
  resp_StatusCode resp = 429 ->
  resp_Body resp = Bytes b ->
  handleResponse E resp result
  = (Some (RateLimitError
             {| Message :=
                  match
                    assert_string (index (json_Unmarshal_map E b) "detail")
                  with
                  | Some (String a d) => String a d
                  | _ => "Rate limit exceeded"
                  end;
                StatusCode := 429;
                ResponseData := None;
                RequestID := Header_Get (resp_Header resp) "X-Request-ID" |}
             (match Header_Get (resp_Header resp) "Retry-After" with
              | EmptyString => 0
              | String _ _ as ra => fst (strconv_Atoi E ra)
              end)),
     result).
Proof.
  intros Hs Hb. unfold handleResponse. rewrite Hs, Hb. cbn.
  unfold NewRateLimitError, detail_or. do 3 f_equal.
  - f_equal.
    destruct (assert_string (index (json_Unmarshal_map E b) "detail"))
      as [[|a d]|]; reflexivity.
  - by destruct (Header_Get _ _).
Qed.
End RetryAfter.

(** C3 (the code at its failing input): with 36 attempts allowed and a
    server that is down, the wait before attempt 35 is asked for with a
    negative duration, the wrapped product of [1 << 34] and a second,
    where [min (2 ^ 34) 10] seconds are ten seconds. *)
Theorem backoff_wraps_before_attempt_35 :
  let evs :=
    snd (doRequest down (client 36) "GET" "/x" None (Some "kept") []) in
  waits_of evs !! 34%nat = Some (-1266874889709551616, None)
  /\ backoff 34 = -1266874889709551616
  /\ Z.min (2 ^ 34) 10 * Second = 10000000000.
Proof. vm_compute. done. Qed.

Lemma doRequest_without_attempt_witness :
  doRequest down (client 0) "GET" "/api/v1/identity/abc" None (Some "kept") []
  = (None, Some "kept", []).
Proof. apply doRequest_without_attempt. cbn. lia. Defined.

Lemma backoff_schedule_witness :
  let evs :=
    snd (doRequest down (client 3) "GET" "/x" None (Some "kept") []) in
  exists w,
    waits_of evs !! 2%nat = Some (w, None)
    /\ w = Z.min (2 ^ 2) 10 * Second.
Proof.
  intros evs. exists 4000000000.
  assert (waits_of evs !! 2%nat = Some (4000000000, None)) as Hw
    by (vm_compute; reflexivity).
  split; [exact Hw|]. subst evs.
  destruct (doRequest down (client 3) "GET" "/x" None (Some "kept") [])
    as [[err result'] evs] eqn:Hrun.
  destruct (backoff_schedule _ _ _ _ _ _ _ _ _ _ _ _ _ Hrun Hw) as [_ Hmin].
  apply Hmin. lia.
Defined.

Lemma rate_limit_records_retry_after_witness :
  handleResponse (calm "ok")
    {| resp_StatusCode := 429;
       resp_Header := {["Retry-After" := ["7"]]};
       resp_Body := Bytes "{}" |}
    (Some "kept")
  = (Some (RateLimitError {| Message := "Rate limit exceeded";
                             StatusCode := 429;
                             ResponseData := None;
                             RequestID := EmptyString |} 7),
     Some "kept").
Proof.
  rewrite (rate_limit_records_retry_after (calm "ok")
             {| resp_StatusCode := 429;
                resp_Header := {["Retry-After" := ["7"]]};
                resp_Body := Bytes "{}" |}
             (Some "kept") "{}" eq_refl eq_refl).
  vm_compute. reflexivity.
Defined.

(** * Further properties of the code *)

(** ** Strings *)

Lemma append_cons (a : Ascii.ascii) (s t : string) :
  String a s +:+ t = String a (s +:+ t).
Proof. reflexivity. Qed.

Lemma append_empty_r (s : string) : s +:+ EmptyString = s.
Proof. induction s as [|a s IH]; [done|]. by rewrite append_cons, IH. Qed.

Lemma append_assoc (s t u : string) : (s +:+ t) +:+ u = s +:+ (t +:+ u).
Proof. induction s as [|a s IH]; [done|]. by rewrite !append_cons, IH. Qed.

Lemma append_length (s t : string) :
  String.length (s +:+ t) = (String.length s + String.length t)%nat.
Proof.
  induction s as [|a s IH]; [done|]. rewrite append_cons. cbn. by rewrite IH.
Qed.

Lemma append_fixed (s t : string) : s +:+ t = s -> t = EmptyString.
Proof.
  intros Heq. apply (f_equal String.length) in Heq.
  rewrite append_length in Heq. destruct t; [done|]. cbn in Heq. lia.
Qed.

Lemma is_empty_spec (s : string) : is_empty s = true <-> s = EmptyString.
Proof. by destruct s. Qed.

(** ** The text of an error *)

Lemma Error_parts (e : ActorHubError) :
  Error e = Message e +:+ status_part e +:+ request_part e.
Proof.
  unfold Error, status_part, request_part.
  destruct (0 <? StatusCode e), (is_empty (RequestID e));
    by rewrite ?append_empty_r, ?append_assoc.
Qed.

(** X3: the text of an error starts with its message, and is the bare
    message exactly when the error has no positive status code and no
    request identifier. *)
Theorem Error_is_message_iff (e : ActorHubError) :
  (exists tail, Error e = Message e +:+ tail)
  /\ (Error e = Message e <-> StatusCode e <= 0 /\ RequestID e = EmptyString).
Proof.
  rewrite Error_parts. split; [eauto|].
  unfold status_part, request_part. split.
  - intros Heq. apply append_fixed in Heq.
    destruct (Z.ltb_spec 0 (StatusCode e)) as [?|?]; [done|].
    destruct (RequestID e); [done|]. done.
  - intros [Hs ->].
    destruct (Z.ltb_spec 0 (StatusCode e)) as [?|?]; [lia|].
    cbn [is_empty]. by rewrite !append_empty_r.
Qed.

(** ** The classifier, status by status *)

Ltac by_status :=
  repeat match goal with
         | |- context [Z.eqb ?a ?b] => destruct (Z.eqb_spec a b)
         | |- context [Z.leb ?a ?b] => destruct (Z.leb_spec a b)
         end.

Lemma or_default_nonempty (message dflt : string) :
  dflt <> EmptyString -> or_default message dflt <> EmptyString.
Proof. by destruct message. Qed.

Lemma or_default_keeps (message dflt : string) :
  message <> EmptyString -> or_default message dflt = message.
Proof. by destruct message. Qed.

Section ClassifierMore.
Context (E : Env) {D : Type} `{!Unmarshaler D}.
Implicit Types (resp : Response) (result : option D) (b : string).

(** X4: a response with a readable body and a status of 400 or more is
    always a failure that leaves the destination alone; the error
    carries the status of the response and its [X-Request-ID]; and it
    is one the loop retries exactly when the status is 429 or at least
    500. *)
Theorem handleResponse_failure resp result b :
  resp_Body resp = Bytes b ->
  400 <= resp_StatusCode resp ->
  exists e base,
    handleResponse E resp result = (Some e, result)
    /\ embedded e = Some base
    /\ StatusCode base = resp_StatusCode resp
    /\ RequestID base = Header_Get (resp_Header resp) "X-Request-ID"
    /\ (retryable e = true
        <-> resp_StatusCode resp = 429 \/ 500 <= resp_StatusCode resp).
Proof.
  intros Hb Hs. unfold handleResponse. rewrite Hb. by_status; try lia.
  all: eexists _, _; split_and!; try reflexivity; try (cbn; congruence).
  all: cbn; split; intros; try done; try lia; auto.
Qed.

(** X5: when the decoded body has a non-empty string under [detail],
    that string is the message of the failure, for every status of 400
    or more. *)
Theorem detail_becomes_message resp result b d :
  resp_Body resp = Bytes b ->
  400 <= resp_StatusCode resp ->
  index (json_Unmarshal_map E b) "detail" = Some (AString d) ->
  d <> EmptyString ->
  exists e base,
    handleResponse E resp result = (Some e, result)
    /\ embedded e = Some base
    /\ Message base = d.
Proof.
  intros Hb Hs Hd Hne. unfold handleResponse, detail_or.
  rewrite Hb, Hd. cbn [assert_string]. by_status; try lia.
  all: eexists _, _; split_and!; try reflexivity.
  all: cbn; by rewrite ?or_default_keeps.
Qed.

(** X6: an empty string under [detail] replaces the default of the
    classifier, and the constructor then fills in its own: the same
    text for 401, 404, 422 and 429, but "Server error" without the
    status for 500 and more, and no message at all for the other
    statuses from 400 on, which have no constructor. *)
Theorem empty_detail_falls_back resp result b :
  resp_Body resp = Bytes b ->
  400 <= resp_StatusCode resp ->
  index (json_Unmarshal_map E b) "detail" = Some (AString EmptyString) ->
  exists e base,
    handleResponse E resp result = (Some e, result)
    /\ embedded e = Some base
    /\ Message base
       = (if resp_StatusCode resp =? 401 then "Invalid or missing API key"
          else if resp_StatusCode resp =? 404 then "Resource not found"
          else if resp_StatusCode resp =? 422 then "Validation error"
          else if resp_StatusCode resp =? 429 then "Rate limit exceeded"
          else if 500 <=? resp_StatusCode resp then "Server error"
          else EmptyString).
Proof.
  intros Hb Hs Hd. unfold handleResponse, detail_or.
  rewrite Hb, Hd. cbn [assert_string]. by_status; try lia.
  all: eexists _, _; split_and!; reflexivity.
Qed.

(** X7: the failures with a type of their own (401, 404, 422, 429, 500
    and more) never have an empty message and never keep the decoded
    body; every other status from 400 on gives a bare [ActorHubError]
    that keeps the decoded body as [ResponseData], nil when the body
    did not decode. *)
Theorem typed_and_untyped_failures resp result b :
  resp_Body resp = Bytes b ->
  400 <= resp_StatusCode resp ->
  let typed :=
    resp_StatusCode resp = 401 \/ resp_StatusCode resp = 404
    \/ resp_StatusCode resp = 422 \/ resp_StatusCode resp = 429
    \/ 500 <= resp_StatusCode resp in
  exists e base,
    handleResponse E resp result = (Some e, result)
    /\ embedded e = Some base
    /\ (typed ->
        e <> Base base
        /\ Message base <> EmptyString
        /\ ResponseData base = None)
    /\ (~ typed ->
        e = Base base
        /\ ResponseData base = json_Unmarshal_map E b).
Proof.
  intros Hb Hs typed. subst typed.
  unfold handleResponse. rewrite Hb. by_status; try lia.
  all: eexists _, _; split_and!; try reflexivity.
  all: try (intros _; split_and!;
            [done | by apply or_default_nonempty | done]).
  all: try (intros Huntyped; exfalso; apply Huntyped; lia).
  - intros ?. exfalso. lia.
  - done.
Qed.

(** X8: a response with a readable body is a success exactly when its
    status is below 400 and the body, if there is one to decode and a
    destination to decode it into, decodes without error; on a status
    below 400 the destination ends as the decoder left it, or as it was
    when nothing was decoded. *)
Theorem handleResponse_success resp result b :
  resp_Body resp = Bytes b ->
  let decodes :=
    match result with
    | Some d => b <> EmptyString -> snd (json_Unmarshal b d) = None
    | None => True
    end in
  let after :=
    match result with
    | Some d =>
        if is_empty b then result else Some (fst (json_Unmarshal b d))
    | None => None
    end in
  (fst (handleResponse E resp result) = None
   <-> resp_StatusCode resp < 400 /\ decodes)
  /\ (resp_StatusCode resp < 400 ->
      snd (handleResponse E resp result) = after).
Proof.
  intros Hb decodes after. subst decodes after.
  unfold handleResponse. rewrite Hb. by_status.
  1-6: split; [split; [done|intros [? _]; lia]|intros; lia].
  destruct result as [d|]; [|by split; [split; [split; [lia|]|]|]].
  destruct b as [|a b]; [by split; [split; [split; [lia|]|]|]|].
  cbn [String.length Nat.ltb Nat.leb is_empty].
  destruct (json_Unmarshal (String a b) d) as [d' [cause|]]; cbn.
  - split; [|done]. split; [done|]. intros [_ Hdec]. by specialize (Hdec ltac:(done)).
  - split; [|done]. split; [|done]. intros _. split; [lia|done].
Qed.
End ClassifierMore.

(** ** More on one attempt *)

Section AttemptMore.
Context (E : Env) {D : Type} `{!Unmarshaler D}.
Implicit Types (c : Client) (body : option Payload) (result : option D).
Implicit Types (h evs : list Event) (err : option error).

(** The destination changes only where the body of a success was
    decoded. *)
Lemma handleResponse_destination resp result err result' :
  handleResponse E resp result = (err, result') ->
  err <> None ->
  (forall cause,
      err <> Some (Errorf "failed to unmarshal response: %w" cause)) ->
  result' = result.
Proof.
  unfold handleResponse. intros Hret Herr Hdec.
  destruct (resp_Body resp) as [b|cause]; [|by simplify_eq].
  revert Hret. by_status; intros Hret; try by simplify_eq.
  destruct result as [d|]; [|by simplify_eq].
  destruct (0 <? String.length b)%nat; [|by simplify_eq].
  destruct (json_Unmarshal b d) as [d' [cause|]]; simplify_eq.
  by destruct (Hdec cause).
Qed.

Lemma doRequestOnce_destination c method path body result h err result' evs :
  doRequestOnce E c method path body result h = (err, result', evs) ->
  err <> None ->
  (forall cause,
      err <> Some (Errorf "failed to unmarshal response: %w" cause)) ->
  result' = result.
Proof.
  intros Hrun Herr Hdec.
  destruct (doRequestOnce_cases E c method path body result h)
    as [(? & _ & Heq)|[(? & ? & _ & _ & Heq)|(reqBody & _ & _ & Heq)]];
    rewrite Heq in Hrun; try by simplify_eq.
  cbn zeta in Hrun. destruct (httpClient_Do E h _) as [resp|cause];
    [|by simplify_eq].
  destruct (handleResponse E resp result) as [err' result''] eqn:Hresp.
  simplify_eq. by eapply handleResponse_destination.
Qed.

(** A failure the loop retries comes out of a response: the attempt
    sent its request. *)
Lemma doRequestOnce_retryable_sent c method path body result h e result' evs :
  doRequestOnce E c method path body result h = (Some e, result', evs) ->
  retryable e = true ->
  length (sends_of evs) = 1%nat.
Proof.
  intros Hrun He.
  destruct (doRequestOnce_cases E c method path body result h)
    as [(? & _ & Heq)|[(? & ? & _ & _ & Heq)|(reqBody & _ & _ & Heq)]];
    rewrite Heq in Hrun; by simplify_eq.
Qed.

Lemma doRequestOnce_sends_le c method path body result h err result' evs :
  doRequestOnce E c method path body result h = (err, result', evs) ->
  (length (sends_of evs) <= 1)%nat.
Proof.
  intros Hrun.
  destruct (doRequestOnce_cases E c method path body result h)
    as [(? & _ & Heq)|[(? & ? & _ & _ & Heq)|(reqBody & _ & _ & Heq)]];
    rewrite Heq in Hrun; simplify_eq; cbn; lia.
Qed.
End AttemptMore.

(** ** More on the retry loop *)

Lemma backoff_le (attempt : Z) : backoff attempt <= 10 * Second.
Proof.
  unfold backoff.
  destruct (Z.ltb_spec (10 * Second)
              (Int64.mul (Int64.shl 1 attempt) Second)); lia.
Qed.

Lemma Shape_success_iff attempts lastErr outs ws err :
  Shape attempts lastErr outs ws err ->
  lastErr <> None \/ attempts <> [] ->
  err = None <-> last outs = Some None.
Proof.
  induction 1 as [| | | |attempt later lastErr e outs ws err He HS IH];
    intros Hstart.
  - split; [|done]. intros ->. by destruct Hstart.
  - done.
  - done.
  - done.
  - destruct (IH ltac:(by left)) as [IH1 IH2].
    destruct outs as [|o outs].
    + inversion HS; subst. split; done.
    + done.
Qed.

Section LoopMore.
Context (E : Env) {D : Type} `{!Unmarshaler D}.
Implicit Types (c : Client) (body : option Payload) (result : option D).
Implicit Types (h evs : list Event) (err lastErr : option error).

Lemma doRequest_from_counts c method path body attempts lastErr result h
    err result' evs :
  doRequest_from E c method path body attempts lastErr result h
  = (err, result', evs) ->
  (length (waits_of evs) <= length (sends_of evs))%nat
  /\ (length (sends_of evs) <= length (attempts_of evs))%nat.
Proof.
  revert lastErr result h err result' evs.
  induction attempts as [|attempt later IH];
    intros lastErr result h err result' evs Hrun.
  { rewrite doRequest_from_nil in Hrun. by simplify_eq. }
  destruct (doRequestOnce E c method path body result h)
    as [[err1 result1] evs1] eqn:Honce.
  erewrite doRequest_from_cons in Hrun by exact Honce.
  pose proof (doRequestOnce_sends_le E _ _ _ _ _ _ _ _ _ Honce) as Hle.
  destruct (doRequestOnce_quiet E _ _ _ _ _ _ _ _ _ Honce) as [Ha Hw].
  destruct err1 as [e|].
  2:{ simplify_eq.
      rewrite attempts_of_app, waits_of_app, sends_of_app, Ha, Hw,
        !length_app. cbn. lia. }
  destruct (retryable e) eqn:Hretry.
  2:{ simplify_eq.
      rewrite attempts_of_app, waits_of_app, sends_of_app, Ha, Hw,
        !length_app. cbn. lia. }
  pose proof (doRequestOnce_retryable_sent E _ _ _ _ _ _ _ _ _ Honce Hretry)
    as Hsent.
  cbn zeta in Hrun. destruct (ctx_Done E _ _) as [ce|].
  { simplify_eq.
    rewrite attempts_of_app, waits_of_app, sends_of_app, Ha, Hw,
      !length_app. cbn. lia. }
  destruct (doRequest_from _ _ _ _ _ _ _ _ _)
    as [[err2 result2] evs2] eqn:Hrest.
  simplify_eq. apply IH in Hrest as [IH1 IH2].
  rewrite attempts_of_app, waits_of_app, sends_of_app, Ha, Hw, !length_app.
  cbn. unfold attempts_of, waits_of, sends_of in *. lia.
Qed.

Lemma doRequest_from_destination c method path body attempts lastErr result h
    err result' evs :
  doRequest_from E c method path body attempts lastErr result h
  = (err, result', evs) ->
  err <> None ->
  (forall cause,
      err <> Some (Errorf "failed to unmarshal response: %w" cause)) ->
  result' = result.
Proof.
  revert lastErr result h err result' evs.
  induction attempts as [|attempt later IH];
    intros lastErr result h err result' evs Hrun Herr Hdec.
  { rewrite doRequest_from_nil in Hrun. by simplify_eq. }
  destruct (doRequestOnce E c method path body result h)
    as [[err1 result1] evs1] eqn:Honce.
  erewrite doRequest_from_cons in Hrun by exact Honce.
  destruct err1 as [e|]; [|by simplify_eq].
  destruct (retryable e) eqn:Hretry.
  2:{ simplify_eq. by eapply doRequestOnce_destination. }
  assert (result1 = result) as ->.
  { eapply doRequestOnce_destination; [exact Honce|done|].
    intros cause [= ->]. done. }
  cbn zeta in Hrun. destruct (ctx_Done E _ _) as [ce|]; [by simplify_eq|].
  destruct (doRequest_from _ _ _ _ _ _ _ _ _)
    as [[err2 result2] evs2] eqn:Hrest.
  simplify_eq. by eapply IH.
Qed.

(** X9: a call never hands more requests to the transport than it
    makes attempts, so never more than [maxRetries]; and it never waits
    more often than it has sent a request. *)
Theorem doRequest_counts c method path body result h err result' evs :
  doRequest E c method path body result h = (err, result', evs) ->
  (length (waits_of evs) <= length (sends_of evs))%nat
  /\ (length (sends_of evs) <= length (attempts_of evs))%nat
  /\ Z.of_nat (length (attempts_of evs)) <= Z.max 0 (maxRetries c).
Proof.
  intros Hrun.
  destruct (doRequest_from_counts _ _ _ _ _ _ _ _ _ _ _ Hrun) as [Hw Hs].
  split_and!; [done..|].
  apply doRequest_from_shape, Shape_length in Hrun as [Hlen _].
  rewrite length_seqZ in Hlen. lia.
Qed.

(** X10: when a call fails with anything but a decoding error, the
    destination the caller passed is as it was before the call. *)
Theorem doRequest_failure_keeps_destination c method path body result h
    e result' evs :
  doRequest E c method path body result h = (Some e, result', evs) ->
  (forall cause, e <> Errorf "failed to unmarshal response: %w" cause) ->
  result' = result.
Proof.
  intros Hrun Hdec.
  eapply doRequest_from_destination; [exact Hrun|done|].
  intros cause [= ->]. by eapply Hdec.
Qed.

(** X11: with at least one attempt allowed, a call returns a nil error
    exactly when its last attempt succeeded. *)
Theorem doRequest_success_iff c method path body result h err result' evs :
  doRequest E c method path body result h = (err, result', evs) ->
  0 < maxRetries c ->
  err = None <-> last (attempts_of evs) = Some None.
Proof.
  intros Hrun Hn. apply doRequest_from_shape in Hrun.
  apply (Shape_success_iff _ _ _ _ _ Hrun). right.
  rewrite seqZ_cons by done. done.
Qed.

(** X12: no wait of a call is asked for with more than ten seconds,
    also where the product that computes it has wrapped. *)
Theorem waits_at_most_ten_seconds c method path body result h
    err result' evs :
  doRequest E c method path body result h = (err, result', evs) ->
  Forall (fun w => w.1 <= 10 * Second) (waits_of evs).
Proof.
  intros Hrun. apply doRequest_from_shape in Hrun.
  apply Forall_lookup. intros i [w d] Hi. cbn.
  destruct (Shape_waits _ _ _ _ _ _ _ _ Hrun Hi) as (attempt & _ & ->).
  apply backoff_le.
Qed.

(** Each request of a call, field by field. *)
Lemma doRequest_requests c method path body result h err result' evs :
  doRequest E c method path body result h = (err, result', evs) ->
  Forall (fun req =>
            req_Method req = method
            /\ req_URL req = baseURL c +:+ path
            /\ req_Header req
               = {[ "X-API-Key" := [apiKey c];
                    "Content-Type" := ["application/json"];
                    "User-Agent" := ["actorhub-go/0.1.0"] ]}
            /\ match body with
               | Some p =>
                   exists jsonBody,
                     json_Marshal E p = inl jsonBody
                     /\ req_Body req = Some jsonBody
               | None => req_Body req = None
               end)
         (sends_of evs).
Proof.
  intros Hrun. apply doRequest_from_sends in Hrun.
  eapply Forall_impl; [exact Hrun|].
  intros req (reqBody & Hm & ->). split_and!; [done..| |].
  - vm_compute. reflexivity.
  - destruct body as [p|]; cbn in Hm |- *.
    + destruct (json_Marshal E p) as [jsonBody|]; simplify_eq. eauto.
    + by simplify_eq.
Qed.

(** X13: every request of a call is the same request, with the method
    of the call, the headers [X-API-Key] with the key of the client,
    [Content-Type] and [User-Agent] with the version of the SDK and no
    other, and the encoding of the payload as body, or none without
    payload. *)
Theorem requests_of_a_call c method path body result h err result' evs :
  doRequest E c method path body result h = (err, result', evs) ->
  (forall r1 r2, r1 ∈ sends_of evs -> r2 ∈ sends_of evs -> r1 = r2)
  /\ Forall (fun req =>
               req_Method req = method
               /\ req_Header req
                  = {[ "X-API-Key" := [apiKey c];
                       "Content-Type" := ["application/json"];
                       "User-Agent" := ["actorhub-go/0.1.0"] ]}
               /\ match body with
                  | Some p =>
                      exists jsonBody,
                        json_Marshal E p = inl jsonBody
                        /\ req_Body req = Some jsonBody
                  | None => req_Body req = None
                  end)
            (sends_of evs).
Proof.
  intros Hrun. split.
  - apply doRequest_from_sends in Hrun.
    intros r1 r2 H1 H2. rewrite Forall_forall in Hrun.
    destruct (Hrun r1 H1) as (b1 & Hb1 & ->).
    destruct (Hrun r2 H2) as (b2 & Hb2 & ->).
    congruence.
  - eapply Forall_impl; [by eapply doRequest_requests|].
    intros req (Hm & _ & Hh & Hb). done.
Qed.
End LoopMore.

Section UnreadableResponse.
Context (E : Env) {D : Type} `{!Unmarshaler D}.

(** X14: a request that [http.NewRequestWithContext] refuses, and a
    response whose body cannot be read, end the call at that attempt
    with the wrapped error, no wait and no further request; for the
    unreadable response this holds whatever its status is, a 429 or a
    503 included. *)
Theorem unusable_exchanges_are_final (c : Client) (method path : string)
    (body : option Payload) (result : option D) (h : list Event)
    (attempt : Z) (later : list Z) (lastErr : option error) :
  let req reqBody := build_request c method (baseURL c +:+ path) reqBody in
  let ends (e : error) (sent : list Event) :=
    doRequest_from E c method path body (attempt :: later) lastErr result h
    = (Some e, result, sent ++ [Attempted attempt (Some e)]) in
  (forall reqBody cause,
      marshal_body E body = inl reqBody ->
      http_NewRequest_err E method (baseURL c +:+ path) = Some cause ->
      ends (Errorf "failed to create request: %w" cause) [])
  /\ (forall reqBody resp cause,
      marshal_body E body = inl reqBody ->
      http_NewRequest_err E method (baseURL c +:+ path) = None ->
      httpClient_Do E h (req reqBody) = inl resp ->
      resp_Body resp = Broken cause ->
      ends (Errorf "failed to read response body: %w" cause)
        [Sent (req reqBody)]).
Proof.
  intros req ends. subst req ends. cbn beta.
  destruct (doRequestOnce_cases E c method path body result h)
    as [(cause0 & Hm & Heq)|[(reqBody0 & cause0 & Hm & Hn & Heq)
                            |(reqBody0 & Hm & Hn & Heq)]].
  - split; [intros ? ? Hm'|intros ? ? ? Hm']; by rewrite Hm in Hm'.
  - split.
    + intros reqBody cause _ Hn'. rewrite Hn in Hn'. simplify_eq.
      by erewrite doRequest_from_cons by exact Heq.
    + intros ? ? ? _ Hn'. by rewrite Hn in Hn'.
  - cbn zeta in Heq. split.
    + intros ? ? _ Hn'. by rewrite Hn in Hn'.
    + intros reqBody resp cause Hm' _ Hdo Hb.
      rewrite Hm in Hm'. simplify_eq. rewrite Hdo in Heq.
      unfold handleResponse in Heq. rewrite Hb in Heq.
      by erewrite doRequest_from_cons by exact Heq.
Qed.
End UnreadableResponse.

(** ** The wrappers *)

Section ResultOrError.
Context (E : Env) {D : Type} `{!Unmarshaler D}.

Lemma handleResponse_keeps_pointer resp (result : option D) err result' :
  handleResponse E resp result = (err, result') ->
  is_Some result -> is_Some result'.
Proof.
  unfold handleResponse. intros Hret [d ->].
  destruct (resp_Body resp) as [b|cause]; [|by simplify_eq].
  revert Hret. by_status; intros Hret; try by simplify_eq.
  destruct (0 <? String.length b)%nat; [|by simplify_eq].
  destruct (json_Unmarshal b d) as [d' [cause|]]; by simplify_eq.
Qed.

Lemma doRequest_from_keeps_pointer c method path body attempts lastErr
    (result : option D) h err result' evs :
  doRequest_from E c method path body attempts lastErr result h
  = (err, result', evs) ->
  is_Some result -> is_Some result'.
Proof.
  revert lastErr result h err result' evs.
  induction attempts as [|attempt later IH];
    intros lastErr result h err result' evs Hrun Hsome.
  { rewrite doRequest_from_nil in Hrun. by simplify_eq. }
  destruct (doRequestOnce E c method path body result h)
    as [[err1 result1] evs1] eqn:Honce.
  erewrite doRequest_from_cons in Hrun by exact Honce.
  assert (is_Some result1) as Hsome1.
  { destruct (doRequestOnce_cases E c method path body result h)
      as [(? & _ & Heq)|[(? & ? & _ & _ & Heq)|(reqBody & _ & _ & Heq)]];
      rewrite Heq in Honce; try by simplify_eq.
    cbn zeta in Honce. destruct (httpClient_Do E h _) as [resp|cause];
      [|by simplify_eq].
    destruct (handleResponse E resp result) as [err' result''] eqn:Hresp.
    simplify_eq. by eapply handleResponse_keeps_pointer. }
  destruct err1 as [e|]; [|by simplify_eq].
  destruct (retryable e); [|by simplify_eq].
  cbn zeta in Hrun. destruct (ctx_Done E _ _) as [ce|]; [by simplify_eq|].
  destruct (doRequest_from _ _ _ _ _ _ _ _ _)
    as [[err2 result2] evs2] eqn:Hrest.
  simplify_eq. by eapply IH.
Qed.

(** X15: a wrapper returns either a result and a nil error, or a nil
    result and an error, never both and never neither. *)
Theorem dispatch_result_xor_error `{!Zero D} (c : Client)
    (method path : string) (body : option Payload) (h : list Event) :
  let '(r, err, _) := dispatch E c method path body h in
  (is_Some r /\ err = None) \/ (r = None /\ is_Some err).
Proof.
  unfold dispatch, doRequest, mbind, M_bind, mret, M_ret.
  destruct (doRequest_from _ _ _ _ _ _ _ _ _)
    as [[err result'] evs] eqn:Hrun.
  apply doRequest_from_keeps_pointer in Hrun; [|done].
  destruct err; [right|left]; eauto.
Qed.

(** The requests of a wrapper are those of its call of [doRequest]. *)
Lemma dispatch_requests `{!Zero D} (c : Client) (method path : string)
    (body : option Payload) (h : list Event) r evs :
  dispatch E c method path body h = (r, evs) ->
  Forall (fun req =>
            req_Method req = method
            /\ req_URL req = baseURL c +:+ path
            /\ match body with
               | Some p =>
                   exists jsonBody,
                     json_Marshal E p = inl jsonBody
                     /\ req_Body req = Some jsonBody
               | None => req_Body req = None
               end)
         (sends_of evs).
Proof.
  unfold dispatch, mbind, M_bind, mret, M_ret.
  destruct (doRequest E c method path body (Some zero) h)
    as [[err result'] evs1] eqn:Hrun.
  intros Heq.
  assert (evs = evs1) as ->.
  { destruct err; simplify_eq; by rewrite app_nil_r. }
  pose proof (doRequest_requests _ _ _ _ _ _ _ _ _ _ Hrun) as Hall.
  eapply Forall_impl; [exact Hall|].
  intros req (Hm & Hu & _ & Hb). done.
Qed.
End ResultOrError.

Section GetWrappers.
Context (E : Env) (Q : QueryLib).
Context {IdentityResponse ActorPackResponse Licenses Listings : Type}.
Context `{!Unmarshaler IdentityResponse, !Zero IdentityResponse}.
Context `{!Unmarshaler ActorPackResponse, !Zero ActorPackResponse}.
Context `{!Unmarshaler Licenses, !Zero Licenses}.
Context `{!Unmarshaler Listings, !Zero Listings}.

(** X16: every request of [GetIdentity] and of [GetActorPack] is a GET
    without body that carries the key of the client in [X-API-Key]. *)
Theorem identifier_requests (c : Client) (id : string) (h : list Event) :
  Forall (fun req =>
            req_Method req = "GET"
            /\ req_Body req = None
            /\ Header_Get (req_Header req) "X-API-Key" = apiKey c)
         (sends_of (snd (GetIdentity (IdentityResponse := IdentityResponse)
                           E c id h)))
  /\ Forall (fun req =>
               req_Method req = "GET"
               /\ req_Body req = None
               /\ Header_Get (req_Header req) "X-API-Key" = apiKey c)
            (sends_of (snd (GetActorPack
                              (ActorPackResponse := ActorPackResponse)
                              E c id h))).
Proof.
  split.
  - unfold GetIdentity.
    destruct (dispatch _ _ _ _ _ _) as [r evs] eqn:Hrun.
    apply dispatch_sends in Hrun. cbn [snd].
    eapply Forall_impl; [exact Hrun|].
    intros req (reqBody & Hm & ->). cbn in Hm. simplify_eq.
    split_and!; [done..|]. vm_compute. reflexivity.
  - unfold GetActorPack.
    destruct (dispatch _ _ _ _ _ _) as [r evs] eqn:Hrun.
    apply dispatch_sends in Hrun. cbn [snd].
    eapply Forall_impl; [exact Hrun|].
    intros req (reqBody & Hm & ->). cbn in Hm. simplify_eq.
    split_and!; [done..|]. vm_compute. reflexivity.
Qed.

Lemma dispatch_slice_requests {D : Type} `{!Unmarshaler D, !Zero D}
    (c : Client) (method path : string) (body : option Payload)
    (h : list Event) r evs :
  dispatch_slice E c method path body h = (r, evs) ->
  Forall (fun req =>
            req_Method req = method
            /\ req_URL req = baseURL c +:+ path
            /\ match body with
               | Some p =>
                   exists jsonBody,
                     json_Marshal E p = inl jsonBody
                     /\ req_Body req = Some jsonBody
               | None => req_Body req = None
               end)
         (sends_of evs).
Proof.
  unfold dispatch_slice, mbind, M_bind, mret, M_ret.
  destruct (doRequest E c method path body (Some zero) h)
    as [[err result'] evs1] eqn:Hrun.
  intros Heq.
  assert (evs = evs1) as ->.
  { destruct err; simplify_eq; by rewrite app_nil_r. }
  pose proof (doRequest_requests _ _ _ _ _ _ _ _ _ _ Hrun) as Hall.
  eapply Forall_impl; [exact Hall|].
  intros req (Hm & Hu & _ & Hb). done.
Qed.

Lemma licenses_params_lookup (status : string) (page limit : Z) :
  let params := licenses_params status page limit in
  params !! "status" = (if is_empty status then None else Some [status])
  /\ params !! "page" = (if 0 <? page then Some [Itoa page] else None)
  /\ params !! "limit" = (if 0 <? limit then Some [Itoa limit] else None)
  /\ (forall key,
        key <> "status" -> key <> "page" -> key <> "limit" ->
        params !! key = None)
  /\ ((0 <? size params)%nat
      = negb (is_empty status) || (0 <? page) || (0 <? limit)).
Proof.
  unfold licenses_params, set_if, Values_Set.
  destruct (is_empty status), (0 <? page), (0 <? limit); cbn [negb orb].
  all: split_and!; try reflexivity.
  all: try (intros key H1 H2 H3;
            by rewrite ?lookup_insert_ne, ?lookup_empty by done).
  all: rewrite ?map_size_insert_None, ?map_size_empty; try reflexivity.
  all: by rewrite ?lookup_insert_ne, ?lookup_empty by done.
Qed.

(** X17: [GetMyLicenses] filters only by what is set: a page or a
    limit of 0 or less is left out like an empty status; with nothing
    set the URL of every request is the bare route, without a question
    mark; otherwise it is the route, a question mark and the encoding
    of exactly the parameters that are set, the numbers in decimal. *)
Theorem GetMyLicenses_query (c : Client) (status : string) (page limit : Z)
    (h : list Event) :
  let route := "/api/v1/marketplace/licenses/mine" in
  let unset := is_empty status && (page <=? 0) && (limit <=? 0) in
  GetMyLicenses (Licenses := Licenses) E Q c status page limit h
  = GetMyLicenses E Q c status (Z.max 0 page) (Z.max 0 limit) h
  /\ exists params : Values,
      (params !! "status" = (if is_empty status then None else Some [status])
       /\ params !! "page" = (if 0 <? page then Some [Itoa page] else None)
       /\ params !! "limit"
          = (if 0 <? limit then Some [Itoa limit] else None)
       /\ (forall key,
             key <> "status" -> key <> "page" -> key <> "limit" ->
             params !! key = None))
      /\ Forall (fun req =>
                   req_Method req = "GET"
                   /\ req_Body req = None
                   /\ req_URL req
                      = baseURL c
                        +:+ (if unset then route
                             else route +:+ "?" +:+ Values_Encode Q params))
                (sends_of (snd (GetMyLicenses (Licenses := Licenses)
                                  E Q c status page limit h))).
Proof.
  intros route unset. subst route unset. split.
  - unfold GetMyLicenses. do 2 f_equal.
    unfold licenses_params.
    replace (0 <? Z.max 0 page) with (0 <? page) by lia.
    replace (0 <? Z.max 0 limit) with (0 <? limit) by lia.
    destruct (Z.ltb_spec 0 page), (Z.ltb_spec 0 limit); cbn [set_if];
      by rewrite ?Z.max_r by lia.
  - exists (licenses_params status page limit).
    destruct (licenses_params_lookup status page limit)
      as (Hs & Hp & Hl & Hother & Hsize).
    split; [done|].
    unfold GetMyLicenses.
    destruct (dispatch_slice _ _ _ _ _ _) as [r evs] eqn:Hrun.
    apply dispatch_slice_requests in Hrun. cbn [snd].
    eapply Forall_impl; [exact Hrun|].
    intros req (Hm & Hu & Hb). split_and!; [done..|].
    rewrite Hu. f_equal. unfold with_query. rewrite Hsize.
    destruct (is_empty status), (Z.ltb_spec 0 page), (Z.ltb_spec 0 limit),
      (Z.leb_spec page 0), (Z.leb_spec limit 0); try lia; done.
Qed.

(** X18: [ListMarketplace] of a nil request, and of a request in which
    nothing is set (empty strings, no tags, nil pointers, page and limit
    of 0 or less), do the same thing, and every request they send goes
    to the bare route. *)
Theorem ListMarketplace_without_filter (c : Client)
    (req : MarketplaceListRequest) (h : list Event) :
  Query req = EmptyString -> Category req = EmptyString ->
  Tags req = [] -> Featured req = None ->
  MinPrice req = None -> MaxPrice req = None ->
  SortBy req = EmptyString -> Page req <= 0 -> Limit req <= 0 ->
  ListMarketplace (Listings := Listings) E Q c (Some req) h
  = ListMarketplace E Q c None h
  /\ Forall (fun sent =>
               req_Method sent = "GET"
               /\ req_Body sent = None
               /\ req_URL sent
                  = baseURL c +:+ "/api/v1/marketplace/listings")
            (sends_of (snd (ListMarketplace (Listings := Listings)
                              E Q c None h))).
Proof.
  intros Hq Hc Ht Hf Hmin Hmax Hs Hp Hl. split.
  - unfold ListMarketplace, marketplace_params.
    rewrite Hq, Hc, Ht, Hf, Hmin, Hmax, Hs.
    destruct (Z.ltb_spec 0 (Page req)), (Z.ltb_spec 0 (Limit req));
      try lia. reflexivity.
  - unfold ListMarketplace.
    destruct (dispatch_slice _ _ _ _ _ _) as [r evs] eqn:Hrun.
    apply dispatch_slice_requests in Hrun. cbn [snd].
    eapply Forall_impl; [exact Hrun|].
    intros sent (Hm & Hu & Hb). split_and!; [done..|].
    rewrite Hu. reflexivity.
Qed.
End GetWrappers.

(** ** The options of the client *)

Lemma substring_prefix (s t : string) :
  String.substring 0 (String.length s) (s +:+ t) = s.
Proof.
  induction s as [|a s IH]; [by destruct t|].
  rewrite append_cons. cbn. by rewrite IH.
Qed.

Lemma substring_suffix (s t : string) :
  String.substring (String.length s) (String.length t) (s +:+ t) = t.
Proof.
  induction s as [|a s IH].
  - change (EmptyString +:+ t) with t. cbn [String.length].
    rewrite <- (append_empty_r t) at 2. apply substring_prefix.
  - rewrite append_cons. cbn. exact IH.
Qed.

Lemma HasSuffix_append (s suffix : string) : HasSuffix (s +:+ suffix) suffix = true.
Proof.
  unfold HasSuffix. rewrite append_length.
  replace (String.length s + String.length suffix - String.length suffix)%nat
    with (String.length s) by lia.
  rewrite substring_suffix, String.eqb_refl.
  destruct (Nat.leb_spec (String.length suffix)
              (String.length s + String.length suffix)); [done|lia].
Qed.

Lemma substring_split (s : string) (n : nat) :
  (n <= String.length s)%nat ->
  s = String.substring 0 n s
      +:+ String.substring n (String.length s - n) s.
Proof.
  revert n. induction s as [|a s IH]; intros n Hn.
  - cbn in Hn. by replace n with 0%nat by lia.
  - destruct n as [|n].
    + rewrite Nat.sub_0_r.
      pose proof (substring_prefix (String a s) EmptyString) as Hall.
      rewrite append_empty_r in Hall. rewrite Hall. reflexivity.
    + cbn in Hn. cbn [String.substring String.length Nat.sub].
      rewrite append_cons. f_equal. apply IH. lia.
Qed.

Lemma HasSuffix_inv (s suffix : string) :
  HasSuffix s suffix = true -> exists p, s = p +:+ suffix.
Proof.
  unfold HasSuffix. intros [Hle Heq]%andb_prop.
  apply Nat.leb_le in Hle. apply String.eqb_eq in Heq.
  exists (String.substring 0 (String.length s - String.length suffix) s).
  pose proof (substring_split s (String.length s - String.length suffix)
                ltac:(lia)) as Hsplit.
  replace (String.length s - (String.length s - String.length suffix))%nat
    with (String.length suffix) in Hsplit by lia.
  by rewrite Heq in Hsplit.
Qed.

Lemma TrimSuffix_append (s suffix : string) : TrimSuffix (s +:+ suffix) suffix = s.
Proof.
  unfold TrimSuffix. rewrite HasSuffix_append, append_length.
  replace (String.length s + String.length suffix - String.length suffix)%nat
    with (String.length s) by lia.
  apply substring_prefix.
Qed.

(** X19: [WithBaseURL] removes one trailing slash and no more, and
    leaves a URL that does not end in a slash as it is; so the URL of a
    request never gets a doubled slash from a base URL written with one
    trailing slash. *)
Theorem WithBaseURL_trims_one_slash (c : Client) (url : string) :
  (forall stem, url = stem +:+ "/" -> baseURL (WithBaseURL url c) = stem)
  /\ ((forall stem, url <> stem +:+ "/") -> baseURL (WithBaseURL url c) = url)
  /\ apiKey (WithBaseURL url c) = apiKey c
  /\ maxRetries (WithBaseURL url c) = maxRetries c.
Proof.
  split_and!; [| |done..].
  - intros stem ->. cbn. apply TrimSuffix_append.
  - intros Hno. cbn. unfold TrimSuffix.
    destruct (HasSuffix url "/") eqn:Hsuf; [|done].
    apply HasSuffix_inv in Hsuf as [p ->]. by destruct (Hno p).
Qed.


Lemma options_keep_the_key (opts : list ClientOption) (c : Client) :
  Forall from_the_SDK opts ->
  apiKey (foldl (fun c opt => opt c) c opts) = apiKey c.
Proof.
  intros Hopts. revert c.
  induction Hopts as [|opt opts [[url ->]|[n ->]] _ IH]; intros c; [done|..];
    cbn [foldl]; by rewrite IH.
Qed.

(** X20: without options [NewClient] gives the default base URL and
    three attempts; the options of the SDK never change the key; and
    each of the two settings is decided by the last option that sets
    it, whatever the other options are. *)
Theorem NewClient_options (key : string) (opts : list ClientOption) :
  Forall from_the_SDK opts ->
  NewClient key []
  = {| apiKey := key; baseURL := DefaultBaseURL; maxRetries := 3 |}
  /\ apiKey (NewClient key opts) = key
  /\ (forall n,
        maxRetries (NewClient key (opts ++ [WithMaxRetries n])) = n
        /\ baseURL (NewClient key (opts ++ [WithMaxRetries n]))
           = baseURL (NewClient key opts))
  /\ (forall url,
        baseURL (NewClient key (opts ++ [WithBaseURL url]))
        = TrimSuffix url "/"
        /\ maxRetries (NewClient key (opts ++ [WithBaseURL url]))
           = maxRetries (NewClient key opts)).
Proof.
  intros Hopts. unfold NewClient. split_and!.
  - reflexivity.
  - by rewrite options_keep_the_key.
  - intros n. by rewrite foldl_app.
  - intros url. by rewrite foldl_app.
Qed.

(** ** The options and the shared HTTP client *)

Lemma run_options_None (opts : list Config.ClientOption) :
  foldl (fun st opt => st ≫= opt) None opts = None.
Proof. induction opts as [|opt opts IH]; [done|]. exact IH. Qed.

Lemma run_options_ind (P : Config.t * Config.Heap -> Prop)
    (opts : list Config.ClientOption) (st st' : Config.t * Config.Heap) :
  P st ->
  (forall opt s s', opt ∈ opts -> P s -> opt s = Some s' -> P s') ->
  foldl (fun st opt => st ≫= opt) (Some st) opts = Some st' ->
  P st'.
Proof.
  revert st. induction opts as [|opt opts IH]; intros st Hst Hstep Hrun.
  { cbn in Hrun. by simplify_eq. }
  cbn [foldl] in Hrun. cbn [mbind option_bind] in Hrun.
  destruct (opt st) as [s1|] eqn:Hopt.
  2:{ by rewrite run_options_None in Hrun. }
  apply (IH s1); [|intros o s s' Ho; apply Hstep; by right|done].
  eapply Hstep; [by left|exact Hst|exact Hopt].
Qed.

(** X21: on the fields [apiKey], [baseURL] and [maxRetries], [NewClient]
    with the shared HTTP client does what [NewClient] on those fields
    alone does with the same options, [WithTimeout] and [WithHTTPClient]
    being left out. *)
Theorem NewClient_core (key : string) (opts : list Config.ClientOption)
    (opts' : list ClientOption) (H H' : Config.Heap) (c : Config.t) :
  Forall2 erases opts opts' ->
  Config.NewClient key opts H = Some (c, H') ->
  Config.core c = NewClient key opts'.
Proof.
  intros Hopts. unfold Config.NewClient, NewClient.
  generalize (<[fresh (dom H) := {| Config.Timeout := Config.DefaultTimeout;
                                    Config.Others := EmptyString |}]> H).
  set (c0 := {| apiKey := key; baseURL := DefaultBaseURL;
                maxRetries := DefaultMaxRetries |}).
  change c0 with (Config.core {| Config.core := c0;
                                 Config.httpClient := Some (fresh (dom H)) |})
    at 2.
  generalize ({| Config.core := c0;
                 Config.httpClient := Some (fresh (dom H)) |}).
  clear c0. revert c H'.
  induction Hopts as [|opt opt' opts opts' Hopt _ IH]; intros c H' c1 H1 Hrun.
  { cbn in Hrun. by simplify_eq. }
  cbn [foldl] in Hrun |- *. cbn [mbind option_bind] in Hrun.
  destruct (opt (c1, H1)) as [[c2 H2]|] eqn:Hstep.
  2:{ by rewrite run_options_None in Hrun. }
  rewrite (IH _ _ _ _ Hrun). f_equal.
  destruct Hopt; cbn in Hstep; simplify_option_eq; done.
Qed.

Lemma fresh_not_allocated (H : Config.Heap) (l : nat) (hc : Config.HTTPClient) :
  H !! l = Some hc -> l <> fresh (dom H).
Proof.
  intros Hl ->. apply (is_fresh (dom H)). apply elem_of_dom. eauto.
Qed.

(** X22: the order of [WithTimeout] and [WithHTTPClient] matters. With
    the timeout first, the client runs under the timeout of the HTTP
    client handed over, and the timeout asked for is lost. With the
    HTTP client first, the timeout asked for is written into the
    caller's HTTP client, whose other fields stay. With a nil HTTP
    client first, [WithTimeout] dereferences nil and [NewClient] does
    not return. *)
Theorem timeout_and_client_order (key : string) (timeout : Z)
    (H : Config.Heap) (l : nat) (hc : Config.HTTPClient) :
  H !! l = Some hc ->
  (exists st,
      Config.NewClient key
        [Config.WithTimeout timeout; Config.WithHTTPClient (Some l)] H
      = Some st
      /\ Config.timeout_of st = Some (Config.Timeout hc)
      /\ st.2 !! l = Some hc)
  /\ (exists st,
      Config.NewClient key
        [Config.WithHTTPClient (Some l); Config.WithTimeout timeout] H
      = Some st
      /\ Config.timeout_of st = Some timeout
      /\ st.2 !! l = Some {| Config.Timeout := timeout;
                             Config.Others := Config.Others hc |})
  /\ Config.NewClient key
       [Config.WithHTTPClient None; Config.WithTimeout timeout] H
     = None.
Proof.
  intros Hl. pose proof (fresh_not_allocated H l hc Hl) as Hfresh.
  unfold Config.NewClient. split_and!.
  - cbn. rewrite lookup_insert_eq. cbn. eexists. split; [reflexivity|].
    unfold Config.timeout_of. cbn.
    rewrite !lookup_insert_ne by done. by rewrite Hl.
  - cbn. rewrite lookup_insert_ne by done. rewrite Hl. cbn.
    eexists. split; [reflexivity|].
    unfold Config.timeout_of. cbn. by rewrite lookup_insert_eq.
  - reflexivity.
Qed.

(** X23: whatever options of the SDK [NewClient] runs, an HTTP client
    that existed before is still there afterwards with its other
    fields as they were, and unless it was handed over by
    [WithHTTPClient] it is not touched at all. *)
Theorem NewClient_heap_frame (key : string) (opts : list Config.ClientOption)
    (H H' : Config.Heap) (c : Config.t) (l : nat) (hc : Config.HTTPClient) :
  Forall (fun opt => exists opt', erases opt opt') opts ->
  Config.NewClient key opts H = Some (c, H') ->
  H !! l = Some hc ->
  (exists hc', H' !! l = Some hc' /\ Config.Others hc' = Config.Others hc)
  /\ (Config.WithHTTPClient (Some l) ∉ opts -> H' !! l = Some hc).
Proof.
  intros Hopts Hrun Hl.
  pose proof (fresh_not_allocated H l hc Hl) as Hfresh.
  unfold Config.NewClient in Hrun. split.
  - apply (run_options_ind
             (fun st => exists hc', st.2 !! l = Some hc'
                                    /\ Config.Others hc' = Config.Others hc))
      in Hrun; [done| |].
    { cbn. rewrite lookup_insert_ne by done. eauto. }
    intros opt [c1 H1] [c2 H2] Hin (hc1 & Hl1 & Ho1) Hstep.
    rewrite Forall_forall in Hopts.
    destruct (Hopts opt Hin) as [opt' Her].
    destruct Her as [url|n|timeout|hc0]; cbn in Hstep;
      [by simplify_eq; eauto..| |by simplify_eq; eauto].
    destruct (Config.httpClient c1) as [l1|]; [|done]. cbn in Hstep.
    destruct (H1 !! l1) as [hc2|] eqn:Hl2; [|done]. cbn in Hstep.
    simplify_eq. cbn. destruct (decide (l = l1)) as [->|Hne].
    + rewrite lookup_insert_eq. cbn in Hl1. simplify_eq. eauto.
    + rewrite lookup_insert_ne by done. eauto.
  - intros Hnot.
    apply (run_options_ind
             (fun st => Config.httpClient st.1 <> Some l
                        /\ st.2 !! l = Some hc))
      in Hrun; [by destruct Hrun| |].
    { cbn. split; [congruence|]. by rewrite lookup_insert_ne. }
    intros opt [c1 H1] [c2 H2] Hin [Hptr Hl1] Hstep.
    rewrite Forall_forall in Hopts.
    destruct (Hopts opt Hin) as [opt' Her].
    cbn in Hptr, Hl1.
    destruct Her as [url|n|timeout|hc0]; cbn in Hstep;
      [by simplify_eq..| |].
    + destruct (Config.httpClient c1) as [l1|] eqn:Hp1; [|done].
      cbn in Hstep.
      destruct (H1 !! l1) as [hc2|] eqn:Hl2; [|done]. cbn in Hstep.
      simplify_eq. cbn. split; [by rewrite Hp1|].
      rewrite lookup_insert_ne; [done|]. congruence.
    + simplify_eq. cbn. split; [|done]. intros ->. by apply Hnot.
Qed.

(** ** The properties above at work *)

Import Cases.

Lemma handleResponse_failure_witness :
  exists base,
    handleResponse (calm "ok") (plain 418) (Some "kept")
    = (Some (Base base), Some "kept")
    /\ StatusCode base = 418
    /\ RequestID base = "r-7".
Proof.
  destruct (handleResponse_failure (calm "ok") (plain 418) (Some "kept") "{}"
              eq_refl ltac:(cbn; lia))
    as (e & base & Hret & Hemb & Hs & Hid & _).
  exists base. rewrite Hret in *. vm_compute in Hret.
  injection Hret as <-. cbn in Hemb. simplify_eq. done.
Defined.

Lemma detail_becomes_message_witness :
  exists e base,
    handleResponse (detailed 503 "maintenance") (plain 503) (Some "kept")
    = (Some e, Some "kept")
    /\ embedded e = Some base
    /\ Message base = "maintenance".
Proof.
  apply (detail_becomes_message (detailed 503 "maintenance") (plain 503)
           (Some "kept") "{}" "maintenance");
    [reflexivity | cbn; lia | reflexivity | discriminate].
Defined.

Lemma empty_detail_falls_back_witness :
  exists e base,
    handleResponse (detailed 503 EmptyString) (plain 503) (Some "kept")
    = (Some e, Some "kept")
    /\ embedded e = Some base
    /\ Message base = "Server error".
Proof.
  apply (empty_detail_falls_back (detailed 503 EmptyString) (plain 503)
           (Some "kept") "{}"); [reflexivity | cbn; lia | reflexivity].
Defined.

Lemma typed_and_untyped_failures_witness :
  exists base,
    handleResponse (calm "ok") (plain 403) (Some "kept")
    = (Some (Base base), Some "kept")
    /\ ResponseData base = Some ∅.
Proof.
  destruct (typed_and_untyped_failures (calm "ok") (plain 403) (Some "kept")
              "{}" eq_refl ltac:(cbn; lia))
    as (e & base & Hret & _ & _ & Huntyped).
  destruct Huntyped as [-> Hdata]; [cbn; lia|].
  exists base. split; [exact Hret|]. rewrite Hdata. reflexivity.
Defined.

Lemma handleResponse_success_witness :
  fst (handleResponse (calm "ok") (plain 200) (Some "kept")) = None
  /\ snd (handleResponse (calm "ok") (plain 200) (Some "kept")) = Some "{}".
Proof.
  destruct (handleResponse_success (calm "ok") (plain 200) (Some "kept") "{}"
              eq_refl) as [Hiff Hafter].
  split.
  - apply Hiff. split; [cbn; lia|]. intros _. reflexivity.
  - rewrite Hafter by (cbn; lia). reflexivity.
Defined.

Lemma doRequest_counts_witness :
  let evs :=
    snd (doRequest recovering (client 5) "GET" "/x" None (Some "kept") []) in
  length (waits_of evs) = 2%nat
  /\ length (sends_of evs) = 3%nat
  /\ Z.of_nat (length (attempts_of evs)) <= 5.
Proof.
  intros evs. split_and!; [vm_compute; reflexivity..|].
  subst evs.
  destruct (doRequest recovering (client 5) "GET" "/x" None (Some "kept") [])
    as [[err result'] evs] eqn:Hrun.
  destruct (doRequest_counts _ _ _ _ _ _ _ _ _ _ Hrun) as (_ & _ & Hle).
  exact Hle.
Defined.

Lemma doRequest_failure_keeps_destination_witness :
  snd (fst (doRequest down (client 2) "GET" "/x" None (Some "kept") []))
  = Some "kept".
Proof.
  destruct (doRequest down (client 2) "GET" "/x" None (Some "kept") [])
    as [[err result'] evs] eqn:Hrun.
  pose proof Hrun as Hval. vm_compute in Hval. injection Hval as <- _ _.
  cbn [fst snd].
  apply (doRequest_failure_keeps_destination _ _ _ _ _ _ _ _ _ _ Hrun).
  intros cause. discriminate.
Defined.

Lemma doRequest_success_iff_witness :
  fst (fst (doRequest recovering (client 5) "GET" "/x" None (Some "kept") []))
  = None.
Proof.
  destruct (doRequest recovering (client 5) "GET" "/x" None (Some "kept") [])
    as [[err result'] evs] eqn:Hrun.
  cbn [fst].
  apply (doRequest_success_iff _ _ _ _ _ _ _ _ _ _ Hrun); [cbn; lia|].
  vm_compute in Hrun. injection Hrun as <- <- <-. vm_compute. reflexivity.
Defined.

Lemma waits_at_most_ten_seconds_witness :
  let evs :=
    snd (doRequest down (client 36) "GET" "/x" None (Some "kept") []) in
  length (waits_of evs) = 36%nat
  /\ Forall (fun w => w.1 <= 10 * Second) (waits_of evs).
Proof.
  intros evs. split; [vm_compute; reflexivity|]. subst evs.
  destruct (doRequest down (client 36) "GET" "/x" None (Some "kept") [])
    as [[err result'] evs] eqn:Hrun.
  exact (waits_at_most_ten_seconds _ _ _ _ _ _ _ _ _ _ Hrun).
Defined.

Lemma requests_of_a_call_witness :
  let evs :=
    snd (doRequest recovering (client 5) "POST" "/api/v1/identity/verify"
           (Some (VerifyBody {| vr_ImageURL := "u";
                                vr_ImageBase64 := EmptyString;
                                vr_IncludeLicenseOptions := false |}))
           (Some "kept") []) in
  length (sends_of evs) = 3%nat
  /\ Forall (fun req =>
               req_Method req = "POST" /\ req_Body req = Some "verify u")
            (sends_of evs).
Proof.
  intros evs. split; [vm_compute; reflexivity|]. subst evs.
  destruct (doRequest recovering (client 5) "POST" _ _ (Some "kept") [])
    as [[err result'] evs] eqn:Hrun.
  destruct (requests_of_a_call _ _ _ _ _ _ _ _ _ _ Hrun) as [_ Hall].
  eapply Forall_impl; [exact Hall|].
  intros req (Hm & _ & jsonBody & Hj & Hb). split; [exact Hm|].
  vm_compute in Hj. by simplify_eq.
Defined.

Lemma unusable_exchanges_are_final_witness :
  let run := doRequest unreadable (client 3) "GET" "/x" None (Some "kept") [] in
  fst (fst run)
  = Some (Errorf "failed to read response body: %w" "unexpected EOF")
  /\ length (sends_of (snd run)) = 1%nat.
Proof.
  intros run. subst run. unfold doRequest.
  change (seqZ 0 (maxRetries (client 3))) with (0 :: seqZ 1 2).
  destruct (unusable_exchanges_are_final unreadable (client 3) "GET" "/x" None
              (Some "kept") [] 0 (seqZ 1 2) None) as [_ Hread].
  rewrite (Hread None cut_off "unexpected EOF" eq_refl eq_refl eq_refl eq_refl).
  split; reflexivity.
Defined.

Lemma ListMarketplace_without_filter_witness :
  (req_URL <$> sends_of
     (snd (ListMarketplace (Listings := string) (calm "ok") query (client 3)
             (Some nothing_set) [])))
  = ["https://api.actorhub.ai/api/v1/marketplace/listings"].
Proof.
  destruct (ListMarketplace_without_filter (Listings := string) (calm "ok")
              query (client 3) nothing_set [])
    as [-> _]; try reflexivity; try (cbn; lia).
Defined.

Lemma NewClient_options_witness :
  maxRetries (NewClient "key" [WithMaxRetries 7; WithBaseURL "http://a/";
                               WithMaxRetries 5]) = 5
  /\ baseURL (NewClient "key" [WithMaxRetries 7; WithBaseURL "http://a/";
                               WithMaxRetries 5]) = "http://a".
Proof.
  assert (Forall from_the_SDK [WithMaxRetries 7; WithBaseURL "http://a/"])
    as Hopts by (repeat constructor; unfold from_the_SDK; eauto).
  destruct (NewClient_options "key" _ Hopts) as (_ & _ & Hretries & _).
  destruct (Hretries 5) as [Hn Hb]. split; [exact Hn|].
  cbn [app] in Hb. rewrite Hb. reflexivity.
Defined.

Lemma NewClient_core_witness :
  exists st,
    Config.NewClient "key"
      [Config.WithTimeout (60 * Second); Config.WithMaxRetries 5] heap
    = Some st
    /\ maxRetries (Config.core st.1) = 5
    /\ Config.timeout_of st = Some (60 * Second).
Proof.
  destruct (Config.NewClient "key"
              [Config.WithTimeout (60 * Second); Config.WithMaxRetries 5] heap)
    as [[c H']|] eqn:Hrun; [|by vm_compute in Hrun].
  exists (c, H'). split; [done|]. split.
  - cbn [fst].
    rewrite (NewClient_core "key"
               [Config.WithTimeout (60 * Second); Config.WithMaxRetries 5]
               [id; WithMaxRetries 5] heap H' c);
      [reflexivity| |exact Hrun].
    repeat constructor.
  - vm_compute in Hrun. injection Hrun as <- <-. reflexivity.
Defined.

Lemma timeout_and_client_order_witness :
  Config.timeout_of
    <$> Config.NewClient "key"
          [Config.WithTimeout (60 * Second); Config.WithHTTPClient (Some 0%nat)]
          heap
  = Some (Some (5 * Second)).
Proof.
  destruct (timeout_and_client_order "key" (60 * Second) heap 0%nat own
              eq_refl) as [(st & Hrun & Ht & _) _].
  rewrite Hrun. cbn [fmap option_fmap option_map]. by rewrite Ht.
Defined.

Lemma NewClient_heap_frame_witness :
  exists st,
    Config.NewClient "key" [Config.WithTimeout (60 * Second)] heap = Some st
    /\ st.2 !! 0%nat = Some own.
Proof.
  destruct (Config.NewClient "key" [Config.WithTimeout (60 * Second)] heap)
    as [[c H']|] eqn:Hrun; [|by vm_compute in Hrun].
  exists (c, H'). split; [done|].
  assert (Forall (fun opt => exists opt', erases opt opt')
            [Config.WithTimeout (60 * Second)]) as Hopts
    by (repeat constructor; eexists; constructor).
  destruct (NewClient_heap_frame "key" _ heap H' c 0%nat own Hopts Hrun
              eq_refl) as [_ Hsame].
  apply Hsame. intros Hin%list_elem_of_singleton.
  apply (f_equal (fun opt => opt ({| Config.core := client 3;
                                     Config.httpClient := None |}, heap)))
    in Hin.
  discriminate Hin.
Defined.

(** ** More of the same kind *)

Section PostWrappers.
Context (E : Env).
Context {VerifyResponse ConsentCheckResponse : Type}.
Context `{!Unmarshaler VerifyResponse, !Zero VerifyResponse}.
Context `{!Unmarshaler ConsentCheckResponse, !Zero ConsentCheckResponse}.

(** X24: [Verify] of a request that names an image, and [CheckConsent]
    of a request that names an image or has a face embedding, send only
    POST requests to their route, each with the encoding of the request
    as body; one of the three inputs is enough for [CheckConsent]. *)
Theorem posting_wrappers (c : Client) (h : list Event) :
  (forall req : VerifyRequest,
      vr_ImageURL req <> EmptyString \/ vr_ImageBase64 req <> EmptyString ->
      Forall (fun sent =>
                req_Method sent = "POST"
                /\ req_URL sent = baseURL c +:+ "/api/v1/identity/verify"
                /\ exists jsonBody,
                    json_Marshal E (VerifyBody req) = inl jsonBody
                    /\ req_Body sent = Some jsonBody)
             (sends_of (snd (Verify (VerifyResponse := VerifyResponse)
                               E c req h))))
  /\ (forall req : ConsentCheckRequest,
      cc_ImageURL req <> EmptyString \/ cc_ImageBase64 req <> EmptyString
      \/ cc_FaceEmbedding req <> [] ->
      Forall (fun sent =>
                req_Method sent = "POST"
                /\ req_URL sent = baseURL c +:+ "/api/v1/consent/check"
                /\ exists jsonBody,
                    json_Marshal E (ConsentBody req) = inl jsonBody
                    /\ req_Body sent = Some jsonBody)
             (sends_of (snd (CheckConsent
                               (ConsentCheckResponse := ConsentCheckResponse)
                               E c req h)))).
Proof.
  split.
  - intros req Hset. unfold Verify.
    assert (is_empty (vr_ImageURL req) && is_empty (vr_ImageBase64 req)
            = false) as ->.
    { destruct (vr_ImageURL req), (vr_ImageBase64 req); try done.
      by destruct Hset. }
    destruct (dispatch _ _ _ _ _ _) as [r evs] eqn:Hrun.
    apply dispatch_requests in Hrun. exact Hrun.
  - intros req Hset. unfold CheckConsent.
    assert (is_empty (cc_ImageURL req) && is_empty (cc_ImageBase64 req)
            && (length (cc_FaceEmbedding req) =? 0)%nat = false) as ->.
    { destruct (cc_ImageURL req), (cc_ImageBase64 req),
        (cc_FaceEmbedding req); try done.
      by destruct Hset as [?|[?|?]]. }
    destruct (dispatch _ _ _ _ _ _) as [r evs] eqn:Hrun.
    apply dispatch_requests in Hrun. exact Hrun.
Qed.
End PostWrappers.

Section FailureText.
Context (E : Env) {D : Type} `{!Unmarshaler D}.

(** X25: the text of the error for a response with a readable body and
    a status of 400 or more is its message, then the status in the form
    " (HTTP n)", then the request identifier if the response had one. *)
Theorem failure_text_shows_status (resp : Response) (result : option D)
    (b : string) :
  resp_Body resp = Bytes b ->
  400 <= resp_StatusCode resp ->
  exists e base,
    fst (handleResponse E resp result) = Some e
    /\ embedded e = Some base
    /\ Error base
       = Message base
         +:+ " (HTTP " +:+ pretty (resp_StatusCode resp) +:+ ")"
         +:+ match Header_Get (resp_Header resp) "X-Request-ID" with
             | EmptyString => EmptyString
             | String _ _ as id => " [Request ID: " +:+ id +:+ "]"
             end.
Proof.
  intros Hb Hs.
  assert (forall base : ActorHubError,
             StatusCode base = resp_StatusCode resp ->
             RequestID base = Header_Get (resp_Header resp) "X-Request-ID" ->
             Error base
             = Message base
               +:+ " (HTTP " +:+ pretty (resp_StatusCode resp) +:+ ")"
               +:+ match Header_Get (resp_Header resp) "X-Request-ID" with
                   | EmptyString => EmptyString
                   | String _ _ as id => " [Request ID: " +:+ id +:+ "]"
                   end) as Htext.
  { intros base Hcode Hid.
    rewrite Error_parts. unfold status_part, request_part.
    rewrite Hcode, Hid.
    destruct (Z.ltb_spec 0 (resp_StatusCode resp)); [|lia].
    rewrite !append_assoc. do 4 f_equal.
    by destruct (Header_Get _ _). }
  unfold handleResponse. rewrite Hb. by_status; try lia.
  all: eexists _, _; split_and!; [reflexivity..|].
  all: apply Htext; [cbn; congruence|reflexivity].
Qed.
End FailureText.

(** X26: from the attempt numbered 55 on the product that computes the
    wait wraps to zero: the loop asks for no wait at all. *)
Theorem backoff_vanishes (attempt : Z) : 55 <= attempt -> backoff attempt = 0.
Proof.
  intros Ha. unfold backoff, Int64.shl.
  destruct (Z.leb_spec 64 attempt) as [?|Hlt]; [reflexivity|].
  assert (attempt = 55 \/ attempt = 56 \/ attempt = 57 \/ attempt = 58
          \/ attempt = 59 \/ attempt = 60 \/ attempt = 61 \/ attempt = 62
          \/ attempt = 63) as Hcases by lia.
  destruct Hcases as [->|[->|[->|[->|[->|[->|[->|[->| ->]]]]]]]];
    reflexivity.
Qed.

Section FirstSuccess.
Context (E : Env) {D : Type} `{!Unmarshaler D}.

(** X27: a call stops at its first success: an attempt that succeeded
    is the last attempt, no wait follows it, and the call returns a nil
    error. *)
Theorem success_ends_the_call (c : Client) (method path : string)
    (body : option Payload) (result : option D) (h : list Event)
    err result' evs (i : nat) :
  doRequest E c method path body result h = (err, result', evs) ->
  attempts_of evs !! i = Some None ->
  length (attempts_of evs) = S i
  /\ length (waits_of evs) = i
  /\ err = None.
Proof.
  intros Hrun Hi. apply doRequest_from_shape in Hrun.
  by apply (Shape_final _ _ _ _ _ _ _ Hrun Hi).
Qed.
End FirstSuccess.

Lemma posting_wrappers_witness :
  (req_Body <$> sends_of
     (snd (CheckConsent (ConsentCheckResponse := string) (calm "ok")
             (client 3)
             {| cc_ImageURL := EmptyString;
                cc_ImageBase64 := EmptyString;
                cc_FaceEmbedding := [4607182418800017408];
                cc_Platform := "runway";
                cc_IntendedUse := "video";
                cc_Region := "US" |} [])))
  = [Some "consent "].
Proof.
  destruct (posting_wrappers (VerifyResponse := string)
              (ConsentCheckResponse := string) (calm "ok") (client 3) [])
    as [_ Hconsent].
  specialize (Hconsent
                {| cc_ImageURL := EmptyString;
                   cc_ImageBase64 := EmptyString;
                   cc_FaceEmbedding := [4607182418800017408];
                   cc_Platform := "runway";
                   cc_IntendedUse := "video";
                   cc_Region := "US" |}
                ltac:(right; right; discriminate)).
  destruct (sends_of _) as [|sent [|sent' sends]] eqn:Hsends;
    [by vm_compute in Hsends| |by vm_compute in Hsends].
  apply Forall_singleton in Hconsent as (_ & _ & jsonBody & Hj & Hb).
  vm_compute in Hj. simplify_eq. cbn. by rewrite Hb.
Defined.

Lemma failure_text_shows_status_witness :
  exists e base,
    fst (handleResponse (calm "ok") (plain 404) (Some "kept")) = Some e
    /\ embedded e = Some base
    /\ Error base = "Resource not found (HTTP 404) [Request ID: r-7]".
Proof.
  destruct (failure_text_shows_status (calm "ok") (plain 404) (Some "kept")
              "{}" eq_refl ltac:(cbn; lia))
    as (e & base & Hret & Hemb & Htext).
  exists e, base. split_and!; [done..|].
  rewrite Htext. vm_compute in Hret. simplify_eq. cbn in Hemb. simplify_eq.
  vm_compute. reflexivity.
Defined.

Lemma backoff_vanishes_witness : backoff 60 = 0.
Proof. apply backoff_vanishes. lia. Defined.

Lemma success_ends_the_call_witness :
  let evs :=
    snd (doRequest recovering (client 5) "GET" "/x" None (Some "kept") []) in
  length (attempts_of evs) = 3%nat /\ length (waits_of evs) = 2%nat.
Proof.
  intros evs. subst evs.
  destruct (doRequest recovering (client 5) "GET" "/x" None (Some "kept") [])
    as [[err result'] evs] eqn:Hrun.
  destruct (success_ends_the_call _ _ _ _ _ _ _ _ _ _ 2%nat Hrun)
    as (Ha & Hw & _); [|done].
  vm_compute in Hrun. injection Hrun as <- <- <-. vm_compute. reflexivity.
Defined.

(** ** The query of [ListMarketplace] *)

Lemma lookup_set_if_eq (cond : bool) (key value : string) (params : Values) :
  set_if cond key value params !! key
  = if cond then Some [value] else params !! key.
Proof.
  unfold set_if, Values_Set. destruct cond; [|done].
  by rewrite lookup_insert_eq.
Qed.

Lemma lookup_set_if_ne (cond : bool) (key key' value : string)
    (params : Values) :
  key <> key' -> set_if cond key value params !! key' = params !! key'.
Proof.
  intros Hne. unfold set_if, Values_Set. destruct cond; [|done].
  by rewrite lookup_insert_ne.
Qed.

Lemma size_of_inhabited (params : Values) (key : string) (v : list string) :
  params !! key = Some v -> (0 <? size params)%nat = true.
Proof.
  intros Hk. apply Nat.ltb_lt.
  destruct (size params) eqn:Hsize; [|lia].
  apply map_size_empty_iff in Hsize. subst. by rewrite lookup_empty in Hk.
Qed.

Ltac peel :=
  repeat first
    [ rewrite lookup_set_if_ne by done
    | rewrite lookup_insert_ne by done ].

Ltac lookup_params :=
  peel;
  first [ rewrite lookup_set_if_eq | rewrite lookup_insert_eq | idtac ];
  repeat match goal with
         | |- context [is_empty ?s] => destruct (is_empty s)
         | |- context [Z.ltb ?a ?b] => destruct (Z.ltb a b)
         | |- context [Nat.ltb ?a ?b] => destruct (Nat.ltb a b)
         end;
  cbn [negb]; peel; rewrite ?lookup_empty; reflexivity.

Section MarketplaceQuery.
Context (E : Env) (Q : QueryLib).
Context {Listings : Type} `{!Unmarshaler Listings, !Zero Listings}.

Lemma marketplace_params_lookup (query category sortBy : string)
    (tags : list string) (featured : option bool)
    (minPrice maxPrice : option float64) (page limit : Z) :
  let params :=
    marketplace_params Q
      (Some {| Query := query; Category := category; Tags := tags;
               Featured := featured; MinPrice := minPrice;
               MaxPrice := maxPrice; SortBy := sortBy;
               Page := page; Limit := limit |}) in
  params !! "query" = (if is_empty query then None else Some [query])
  /\ params !! "category"
     = (if is_empty category then None else Some [category])
  /\ params !! "tags"
     = (if (0 <? length tags)%nat then Some [Join tags ","] else None)
  /\ params !! "featured" = ((fun b => [FormatBool b]) <$> featured)
  /\ params !! "min_price" = ((fun x => [FormatFloat Q x]) <$> minPrice)
  /\ params !! "max_price" = ((fun x => [FormatFloat Q x]) <$> maxPrice)
  /\ params !! "sort_by" = (if is_empty sortBy then None else Some [sortBy])
  /\ params !! "page" = (if 0 <? page then Some [Itoa page] else None)
  /\ params !! "limit" = (if 0 <? limit then Some [Itoa limit] else None).
Proof.
  cbn zeta. unfold marketplace_params, Values_Set.
  cbn [Query Category Tags Featured MinPrice MaxPrice SortBy Page Limit].
  destruct featured, minPrice, maxPrice; split_and!; lookup_params.
Qed.
End MarketplaceQuery.

Section MarketplaceURL.
Context (E : Env) (Q : QueryLib).
Context {Listings : Type} `{!Unmarshaler Listings, !Zero Listings}.

Lemma marketplace_params_other (req : MarketplaceListRequest) (key : string) :
  Forall (fun k => k <> key)
    ["query"; "category"; "tags"; "featured"; "min_price"; "max_price";
     "sort_by"; "page"; "limit"] ->
  marketplace_params Q (Some req) !! key = None.
Proof.
  intros Hkeys. repeat (apply Forall_cons in Hkeys as [? Hkeys]).
  unfold marketplace_params, Values_Set.
  destruct (Featured req), (MinPrice req), (MaxPrice req);
    peel; by rewrite lookup_empty.
Qed.

(** X28: the query of [ListMarketplace] holds exactly what is set in
    the request: the non-empty strings, the tags joined by commas when
    there are any, the prices when their pointers are not nil, a
    positive page and a positive limit in decimal, and [featured]
    whenever its pointer is not nil, also when it points to false. The
    URL is the bare route when nothing is set, and otherwise the route,
    a question mark and the encoding of these parameters. *)
Theorem ListMarketplace_query (c : Client) (req : MarketplaceListRequest)
    (h : list Event) :
  let route := "/api/v1/marketplace/listings" in
  exists params : Values,
    (params !! "query"
     = (if is_empty (Query req) then None else Some [Query req])
     /\ params !! "category"
        = (if is_empty (Category req) then None else Some [Category req])
     /\ params !! "tags"
        = (if (0 <? length (Tags req))%nat
           then Some [Join (Tags req) ","] else None)
     /\ params !! "featured" = ((fun b => [FormatBool b]) <$> Featured req)
     /\ params !! "min_price"
        = ((fun x => [FormatFloat Q x]) <$> MinPrice req)
     /\ params !! "max_price"
        = ((fun x => [FormatFloat Q x]) <$> MaxPrice req)
     /\ params !! "sort_by"
        = (if is_empty (SortBy req) then None else Some [SortBy req])
     /\ params !! "page"
        = (if 0 <? Page req then Some [Itoa (Page req)] else None)
     /\ params !! "limit"
        = (if 0 <? Limit req then Some [Itoa (Limit req)] else None))
    /\ (forall key,
          Forall (fun k => k <> key)
            ["query"; "category"; "tags"; "featured"; "min_price";
             "max_price"; "sort_by"; "page"; "limit"] ->
          params !! key = None)
    /\ Forall (fun sent =>
                 req_Method sent = "GET"
                 /\ req_Body sent = None
                 /\ req_URL sent
                    = baseURL c
                      +:+ (if decide (params = ∅) then route
                           else route +:+ "?" +:+ Values_Encode Q params))
              (sends_of (snd (ListMarketplace (Listings := Listings)
                                E Q c (Some req) h))).
Proof.
  intros route. subst route.
  exists (marketplace_params Q (Some req)). split_and!.
  1-9: destruct req; apply (marketplace_params_lookup Q).
  - apply marketplace_params_other.
  - unfold ListMarketplace.
    destruct (dispatch_slice _ _ _ _ _ _) as [r evs] eqn:Hrun.
    apply dispatch_slice_requests in Hrun. cbn [snd].
    eapply Forall_impl; [exact Hrun|].
    intros sent (Hm & Hu & Hb). split_and!; [done..|].
    rewrite Hu. f_equal. unfold with_query.
    destruct (decide (marketplace_params Q (Some req) = ∅)) as [->|Hne].
    + reflexivity.
    + destruct (size (marketplace_params Q (Some req))) eqn:Hsize; [|done].
      by apply map_size_empty_iff in Hsize.
Qed.
End MarketplaceURL.

Lemma ListMarketplace_query_witness :
  let req := {| Query := EmptyString;
                Category := "ACTOR";
                Tags := ["drama"; "film"];
                Featured := Some false;
                MinPrice := None;
                MaxPrice := None;
                SortBy := EmptyString;
                Page := 0;
                Limit := 5 |} in
  exists params : Values,
    params !! "featured" = Some ["false"]
    /\ params !! "tags" = Some ["drama,film"]
    /\ params !! "page" = None
    /\ params !! "limit" = Some ["5"]
    /\ length (sends_of (snd (ListMarketplace (Listings := string)
                                (calm "ok") query (client 3) (Some req) [])))
       = 1%nat.
Proof.
  intros req.
  destruct (ListMarketplace_query (Listings := string) (calm "ok") query
              (client 3) req [])
    as (params & (_ & _ & Ht & Hf & _ & _ & _ & Hp & Hl) & _ & _).
  exists params. split_and!; [exact Hf|exact Ht|exact Hp|exact Hl|].
  vm_compute. reflexivity.
Defined.

(** * The context and the codec, as the surroundings answer *)

(** ** The waits of a run against the answers of the context *)

Lemma answered_app (E : Env) (h evs1 evs2 : list Event) :
  answered E h (evs1 ++ evs2)
  <-> answered E h evs1 /\ answered E (h ++ evs1) evs2.
Proof.
  revert h. induction evs1 as [|ev evs1 IH]; intros h.
  - cbn. rewrite app_nil_r. tauto.
  - cbn [app answered]. rewrite IH, <- (assoc_L (++)). cbn [app]. tauto.
Qed.

Lemma answered_at (E : Env) (h pre post : list Event) w d :
  answered E h (pre ++ Waited w d :: post) -> d = ctx_Done E (h ++ pre) w.
Proof. rewrite answered_app. cbn. tauto. Qed.

Lemma waits_of_split (evs : list Event) w d :
  (w, d) ∈ waits_of evs -> exists pre post, evs = pre ++ Waited w d :: post.
Proof.
  unfold waits_of. rewrite list_elem_of_omap. intros (ev & Hin & Hev).
  destruct ev; simplify_eq. by apply list_elem_of_split.
Qed.

Lemma waits_of_elem (pre post : list Event) w d :
  (w, d) ∈ waits_of (pre ++ Waited w d :: post).
Proof.
  rewrite waits_of_app. apply elem_of_app. right. cbn. left.
Qed.

Section Answers.
Context (E : Env) {D : Type} `{!Unmarshaler D}.
Implicit Types (c : Client) (body : option Payload) (result : option D).
Implicit Types (h evs : list Event) (err lastErr : option error).

Lemma doRequestOnce_answered c method path body result h err result' evs :
  doRequestOnce E c method path body result h = (err, result', evs) ->
  answered E h evs.
Proof.
  intros Hrun.
  destruct (doRequestOnce_cases E c method path body result h)
    as [(? & _ & Heq)|[(? & ? & _ & _ & Heq)|(reqBody & _ & _ & Heq)]];
    rewrite Heq in Hrun; simplify_eq; cbn; tauto.
Qed.

Lemma doRequest_from_answered c method path body attempts lastErr result h
    err result' evs :
  doRequest_from E c method path body attempts lastErr result h
  = (err, result', evs) ->
  answered E h evs.
Proof.
  revert lastErr result h err result' evs.
  induction attempts as [|attempt later IH];
    intros lastErr result h err result' evs Hrun.
  { rewrite doRequest_from_nil in Hrun. by simplify_eq. }
  destruct (doRequestOnce E c method path body result h)
    as [[err1 result1] evs1] eqn:Honce.
  erewrite doRequest_from_cons in Hrun by exact Honce.
  pose proof (doRequestOnce_answered _ _ _ _ _ _ _ _ _ Honce) as Hans.
  destruct err1 as [e|].
  2:{ simplify_eq. apply answered_app. split; [done|]. cbn. tauto. }
  destruct (retryable e).
  2:{ simplify_eq. apply answered_app. split; [done|]. cbn. tauto. }
  cbn zeta in Hrun.
  destruct (ctx_Done E (h ++ evs1 ++ [Attempted attempt (Some e)])
              (backoff attempt)) as [ce|] eqn:Hdone.
  - simplify_eq. apply answered_app. split; [done|].
    cbn. rewrite <- (assoc_L (++)). rewrite Hdone. tauto.
  - destruct (doRequest_from _ _ _ _ _ _ _ _ _)
      as [[err2 result2] evs2] eqn:Hrest.
    simplify_eq. apply IH in Hrest.
    apply answered_app. split; [done|].
    cbn [app answered]. rewrite <- !(assoc_L (++)). cbn [app].
    rewrite Hdone. rewrite <- !(assoc_L (++)) in Hrest. cbn [app] in Hrest.
    tauto.
Qed.

(** An attempt that reaches the transport leaves its request first. *)
Lemma doRequest_sends_first c method path body result h reqBody
    err result' evs :
  0 < maxRetries c ->
  marshal_body E body = inl reqBody ->
  http_NewRequest_err E method (baseURL c +:+ path) = None ->
  doRequest E c method path body result h = (err, result', evs) ->
  exists rest,
    evs = Sent (build_request c method (baseURL c +:+ path) reqBody) :: rest.
Proof.
  intros Hn Hm Hnew. unfold doRequest. rewrite seqZ_cons by done.
  destruct (doRequestOnce_cases E c method path body result h)
    as [(? & Hm' & _)|[(? & ? & _ & Hnew' & _)|(reqBody' & Hm' & _ & Heq)]];
    [congruence..|].
  rewrite Hm in Hm'. simplify_eq. cbn zeta in Heq.
  destruct (doRequestOnce E c method path body result h)
    as [[err1 result1] evs1] eqn:Honce.
  apply (f_equal snd) in Heq. cbn [snd] in Heq. subst evs1.
  erewrite doRequest_from_cons by exact Honce.
  destruct err1 as [e|]; [|intros ?; simplify_eq; by eauto].
  destruct (retryable e); [|intros ?; simplify_eq; by eauto].
  cbn zeta. destruct (ctx_Done E _ _); [intros ?; simplify_eq; by eauto|].
  destruct (doRequest_from _ _ _ _ _ _ _ _ _) as [[err2 result2] evs2].
  intros ?. simplify_eq. eauto.
Qed.

(** C2 (as amended): in every call of [doRequest], an attempt that is
    followed by another one ended in a RateLimitError or a ServerError;
    once a first attempt is made, at most [maxRetries - 1] more follow;
    an AuthenticationError, NotFoundError, ValidationError or bare
    ActorHubError ends the call at the attempt that meets it, with no
    wait after it, and is the error returned. When the last attempt
    failed and the context answered no wait of the call, the wait after
    the last attempt included, the failure of the last attempt is the
    error returned; when the context answered one of the waits, the
    error returned is the one of the context. *)
Theorem doRequest_retry_policy c method path body result h err result' evs :
  doRequest E c method path body result h = (err, result', evs) ->
  let outs := attempts_of evs in
  (forall i o,
      outs !! i = Some o -> (S i < length outs)%nat ->
      exists e, o = Some e /\ retryable e = true)
  /\ (outs <> [] -> Z.of_nat (length outs) - 1 <= maxRetries c - 1)
  /\ (forall i e,
      outs !! i = Some (Some e) -> client_failure e = true ->
      length outs = S i /\ length (waits_of evs) = i /\ err = Some e)
  /\ (forall e,
      last outs = Some (Some e) ->
      (forall pre w d post,
          evs = pre ++ Waited w d :: post ->
          ctx_Done E (h ++ pre) w = None) ->
      err = Some e)
  /\ (forall pre w d post ce,
      evs = pre ++ Waited w d :: post ->
      ctx_Done E (h ++ pre) w = Some ce ->
      err = Some (ContextError ce)).
Proof.
  intros Hrun outs. subst outs.
  pose proof (doRequest_from_answered _ _ _ _ _ _ _ _ _ _ _ Hrun) as Hans.
  apply doRequest_shape in Hrun.
  split_and!.
  - intros i o. by apply Shape_inner_retryable with (1 := Hrun).
  - intros Hne. apply Shape_length in Hrun as [Hlen _].
    rewrite length_seqZ in Hlen.
    destruct (attempts_of evs); [done|]. cbn [length] in *. lia.
  - intros i e Hi He.
    apply (Shape_final _ _ _ _ _ _ _ Hrun Hi). by destruct e.
  - intros e Hlast Hquiet.
    rewrite (Shape_uncancelled _ _ _ _ _ Hrun), Hlast; [done|].
    apply Forall_forall. intros [w d] Hin. cbn.
    destruct (waits_of_split _ _ _ Hin) as (pre & post & ->).
    rewrite (answered_at _ _ _ _ _ _ Hans). by eapply Hquiet.
  - intros pre w d post ce -> Hdone.
    pose proof (answered_at _ _ _ _ _ _ Hans) as ->.
    rewrite Hdone in Hrun.
    by destruct (Shape_cancelled _ _ _ _ _ w ce Hrun (waits_of_elem _ _ _ _)).
Qed.

(** C4: when the context is done while [doRequest] waits after a 429 or
    a status of 500 and more, the call returns [ctx.Err()] and not the
    RateLimitError or ServerError of that response. At whatever
    iteration of the loop: the attempt sends its request, the response
    is classified, and the loop returns the error of the context right
    after the wait. And in every call, a wait during which the context
    answered is followed by the return of its error, which differs from
    the failure of the last attempt. *)
Theorem cancellation_during_backoff c method path body result h :
  (forall attempt later lastErr reqBody resp b ce,
      let req := build_request c method (baseURL c +:+ path) reqBody in
      match body with
      | Some p =>
          exists jsonBody,
            json_Marshal E p = inl jsonBody /\ reqBody = Some jsonBody
      | None => reqBody = None
      end ->
      http_NewRequest_err E method (baseURL c +:+ path) = None ->
      httpClient_Do E h req = inl resp ->
      resp_Body resp = Bytes b ->
      resp_StatusCode resp = 429 \/ 500 <= resp_StatusCode resp ->
      (forall e,
          ctx_Done E (h ++ [Sent req; Attempted attempt (Some e)])
            (backoff attempt) = Some ce) ->
      exists e,
        fst (handleResponse E resp result) = Some e
        /\ retryable e = true
        /\ doRequest_from E c method path body (attempt :: later) lastErr
             result h
           = (Some (ContextError ce), result,
              [Sent req; Attempted attempt (Some e);
               Waited (backoff attempt) (Some ce)]))
  /\ (forall err result' evs pre w d post ce,
      doRequest E c method path body result h = (err, result', evs) ->
      evs = pre ++ Waited w d :: post ->
      ctx_Done E (h ++ pre) w = Some ce ->
      err = Some (ContextError ce)
      /\ exists e,
          last (attempts_of evs) = Some (Some e)
          /\ retryable e = true
          /\ err <> Some e).
Proof.
  split.
  - intros attempt later lastErr reqBody resp b ce req Henc Hnew Hdo Hb Hs Hdone.
    subst req.
    assert (marshal_body E body = inl reqBody) as Hm.
    { destruct body as [p|]; cbn; [|by subst].
      destruct Henc as (jsonBody & Hj & ->). by rewrite Hj. }
    clear Henc.
    destruct (doRequestOnce_cases E c method path body result h)
      as [(? & Hm' & _)|[(? & ? & _ & Hnew' & _)|(reqBody' & Hm' & _ & Heq)]];
      [congruence..|].
    rewrite Hm in Hm'. simplify_eq. cbn zeta in Heq. rewrite Hdo in Heq.
    assert (exists e, handleResponse E resp result = (Some e, result)
                      /\ retryable e = true) as (e & Hresp & He).
    { unfold handleResponse. rewrite Hb. by_status; try lia; eauto. }
    rewrite Hresp in Heq. exists e. rewrite Hresp. split_and!; [done..|].
    erewrite doRequest_from_cons by exact Heq. cbv beta iota.
    rewrite He. cbn zeta. cbn [app]. rewrite (Hdone e). reflexivity.
  - intros err result' evs pre w d post ce Hrun -> Hdone.
    pose proof (doRequest_from_answered _ _ _ _ _ _ _ _ _ _ _ Hrun) as Hans.
    apply answered_at in Hans as ->.
    apply doRequest_shape in Hrun. rewrite Hdone in Hrun |- *.
    destruct (Shape_cancelled _ _ _ _ _ w ce Hrun (waits_of_elem _ _ _ _))
      as (-> & e & Hlast & He).
    split; [done|]. exists e. split_and!; [done..|].
    intros [= <-]. done.
Qed.

(** C6: at whatever iteration of the loop of [doRequest] it happens,
    a payload that [json.Marshal] refuses, a transport that fails and a
    success body that does not decode end the call there: the loop
    returns the wrapped error right after the attempt, with no wait
    and no further request. And in every call, an attempt that ended
    in such a wrapped error is the last one, and its error is the one
    returned. *)
Theorem unclassified_failures_are_final c method path body result h :
  (forall attempt later lastErr,
      let req reqBody :=
        build_request c method (baseURL c +:+ path) reqBody in
      let ends (e : error) (after : option D) (sent : list Event) :=
        doRequest_from E c method path body (attempt :: later) lastErr
          result h
        = (Some e, after, sent ++ [Attempted attempt (Some e)]) in
      (forall p cause,
          body = Some p ->
          json_Marshal E p = inr cause ->
          ends (Errorf "failed to marshal request body: %w" cause)
            result [])
      /\ (forall reqBody cause,
          marshal_body E body = inl reqBody ->
          http_NewRequest_err E method (baseURL c +:+ path) = None ->
          httpClient_Do E h (req reqBody) = inr cause ->
          ends (Errorf "failed to send request: %w" cause)
            result [Sent (req reqBody)])
      /\ (forall reqBody resp b d d' cause,
          marshal_body E body = inl reqBody ->
          http_NewRequest_err E method (baseURL c +:+ path) = None ->
          httpClient_Do E h (req reqBody) = inl resp ->
          resp_StatusCode resp < 400 ->
          resp_Body resp = Bytes b ->
          b <> EmptyString ->
          result = Some d ->
          json_Unmarshal b d = (d', Some cause) ->
          ends (Errorf "failed to unmarshal response: %w" cause)
            (Some d') [Sent (req reqBody)]))
  /\ (forall err result' evs i format cause,
      doRequest E c method path body result h = (err, result', evs) ->
      attempts_of evs !! i = Some (Some (Errorf format cause)) ->
      length (attempts_of evs) = S i
      /\ length (waits_of evs) = i
      /\ err = Some (Errorf format cause)).
Proof.
  split.
  - intros attempt later lastErr req ends. subst req ends. cbn beta.
    destruct (doRequestOnce_cases E c method path body result h)
      as [(cause0 & Hm & Heq)|[(? & ? & Hm & Hn & Heq)
                              |(reqBody0 & Hm & Hn & Heq)]].
    + split_and!.
      * intros p cause -> Hj. cbn in Hm. rewrite Hj in Hm. simplify_eq.
        by erewrite doRequest_from_cons by exact Heq.
      * intros ? ? Hm'. by rewrite Hm in Hm'.
      * intros ? ? ? ? ? ? Hm'. by rewrite Hm in Hm'.
    + split_and!.
      * intros p cause -> Hj. cbn in Hm. by rewrite Hj in Hm.
      * intros ? ? _ Hn'. by rewrite Hn in Hn'.
      * intros ? ? ? ? ? ? _ Hn'. by rewrite Hn in Hn'.
    + cbn zeta in Heq. split_and!.
      * intros p cause -> Hj. cbn in Hm. by rewrite Hj in Hm.
      * intros reqBody cause Hm' _ Hdo. rewrite Hm in Hm'. simplify_eq.
        rewrite Hdo in Heq.
        by erewrite doRequest_from_cons by exact Heq.
      * intros reqBody resp b d d' cause Hm' _ Hdo Hs Hb Hne -> Hdec.
        rewrite Hm in Hm'. simplify_eq. rewrite Hdo in Heq.
        assert (handleResponse E resp (Some d)
                = (Some (Errorf "failed to unmarshal response: %w" cause),
                   Some d')) as Hresp.
        { unfold handleResponse. rewrite Hb. by_status; try lia.
          destruct b; [done|]. cbn [String.length Nat.ltb Nat.leb].
          by rewrite Hdec. }
        rewrite Hresp in Heq.
        by erewrite doRequest_from_cons by exact Heq.
  - intros err result' evs i format cause Hrun Hi.
    apply doRequest_shape in Hrun.
    by apply (Shape_final _ _ _ _ _ _ _ Hrun Hi).
Qed.
End Answers.

Section Purchase.
Context (E : Env).
Context {PurchaseResponse : Type}.
Context `{!Unmarshaler PurchaseResponse, !Zero PurchaseResponse}.

(** C10: [PurchaseLicense] writes 30 into the [DurationDays] of the
    caller's struct when it is 0 and leaves a struct with another
    duration alone; no other field changes; every request of the call
    carries the encoding of the struct as it is after that. The call
    is, result and events, the dispatch of that struct as a POST to the
    purchase route; and with at least one attempt allowed, a payload
    that encodes and a request that can be made, the first thing the
    call does is send that encoding. *)
Theorem PurchaseLicense_defaults_duration (c : Client)
    (req : PurchaseLicenseRequest) (h : list Event)
    (req' : PurchaseLicenseRequest)
    (r : option PurchaseResponse * option error) (evs : list Event) :
  PurchaseLicense E c req h = (req', r, evs) ->
  let route := "/api/v1/marketplace/license/purchase" in
  (DurationDays req = 0 -> DurationDays req' = 30)
  /\ (DurationDays req <> 0 -> req' = req)
  /\ (IdentityID req' = IdentityID req
      /\ LicenseType req' = LicenseType req
      /\ UsageType req' = UsageType req
      /\ ProjectName req' = ProjectName req
      /\ ProjectDescription req' = ProjectDescription req
      /\ AllowedPlatforms req' = AllowedPlatforms req
      /\ MaxImpressions req' = MaxImpressions req
      /\ MaxOutputs req' = MaxOutputs req)
  /\ Forall (fun sent => exists jsonBody,
                 json_Marshal E (PurchaseBody req') = inl jsonBody
                 /\ req_Body sent = Some jsonBody)
            (sends_of evs)
  /\ dispatch E c "POST" route (Some (PurchaseBody req')) h = (r, evs)
  /\ (forall jsonBody,
        0 < maxRetries c ->
        json_Marshal E (PurchaseBody req') = inl jsonBody ->
        http_NewRequest_err E "POST" (baseURL c +:+ route) = None ->
        exists sent rest,
          evs = Sent sent :: rest
          /\ req_Method sent = "POST"
          /\ req_Body sent = Some jsonBody).
Proof.
  intros Heq route. subst route.
  unfold PurchaseLicense, mbind, M_bind, mret, M_ret in Heq.
  destruct (dispatch _ _ _ _ _ _) as [r1 evs1] eqn:Hrun in Heq.
  rewrite app_nil_r in Heq. simplify_eq.
  pose proof (dispatch_sends _ _ _ _ _ _ _ _ Hrun) as Hsends.
  split_and!.
  - intros ->. reflexivity.
  - intros Hd. by destruct (Z.eqb_spec (DurationDays req) 0).
  - by destruct (DurationDays req =? 0).
  - by destruct (DurationDays req =? 0).
  - by destruct (DurationDays req =? 0).
  - by destruct (DurationDays req =? 0).
  - by destruct (DurationDays req =? 0).
  - by destruct (DurationDays req =? 0).
  - by destruct (DurationDays req =? 0).
  - by destruct (DurationDays req =? 0).
  - eapply Forall_impl; [exact Hsends|].
    intros sent (reqBody & Hm & ->). cbn in Hm.
    destruct (json_Marshal E _) as [jsonBody|cause]; [|done].
    simplify_eq. eauto.
  - exact Hrun.
  - intros jsonBody Hn Hj Hnew.
    unfold dispatch, mbind, M_bind, mret, M_ret in Hrun.
    destruct (doRequest E c "POST" _ _ (Some zero) h)
      as [[err result'] evs1] eqn:Hcall.
    assert (evs = evs1) as ->.
    { destruct err; simplify_eq; by rewrite app_nil_r. }
    assert (marshal_body E
              (Some (PurchaseBody
                       (if DurationDays req =? 0
                        then set_DurationDays 30 req else req)))
            = inl (Some jsonBody)) as Hm by (cbn; by rewrite Hj).
    destruct (doRequest_sends_first E _ _ _ _ _ _ _ _ _ _ Hn Hm Hnew Hcall)
      as [rest ->].
    eauto.
Qed.
End Purchase.

(** C2, as the specification words it, fails when the caller gives up
    during the wait that follows the only attempt: the call returns the
    error of the context, not the ServerError of the attempt. *)
Lemma last_failure_is_lost_when_abandoned :
  ~ Spec.last_failure_is_returned abandoned (client 1) "GET" "/x" None
      (Some "kept") [].
Proof.
  unfold Spec.last_failure_is_returned.
  destruct (doRequest abandoned (client 1) "GET" "/x" None (Some "kept") [])
    as [[err result'] evs] eqn:Hrun.
  vm_compute in Hrun. injection Hrun as <- <- <-.
  intros Hspec.
  specialize (Hspec unavailable ltac:(by repeat constructor) eq_refl).
  discriminate Hspec.
Qed.

Lemma doRequest_retry_policy_witness :
  let run := doRequest down (client 3) "GET" "/x" None (Some "kept") [] in
  attempts_of (snd run) = [Some unavailable; Some unavailable; Some unavailable]
  /\ fst (fst run) = Some unavailable.
Proof.
  intros run. split; [vm_compute; reflexivity|].
  destruct run as [[err result'] evs] eqn:Hrun. subst run.
  destruct (doRequest_retry_policy _ _ _ _ _ _ _ _ _ _ Hrun)
    as (_ & _ & _ & Hlast & _).
  cbn [fst]. apply Hlast.
  - vm_compute in Hrun. injection Hrun as <- <- <-. vm_compute. reflexivity.
  - intros pre w d post _. reflexivity.
Defined.

Lemma cancellation_during_backoff_witness :
  doRequest abandoned (client 3) "GET" "/x" None (Some "kept") []
  = (Some (ContextError Canceled), Some "kept",
     [Sent (build_request (client 3) "GET" (baseURL (client 3) +:+ "/x") None);
      Attempted 0 (Some unavailable);
      Waited Second (Some Canceled)]).
Proof.
  destruct (cancellation_during_backoff abandoned (client 3) "GET" "/x" None
              (Some "kept") []) as [Hstep _].
  destruct (Hstep 0 (seqZ 1 2) None None
              {| resp_StatusCode := 503; resp_Header := ∅;
                 resp_Body := Bytes "{}" |}
              "{}" Canceled eq_refl eq_refl eq_refl eq_refl
              ltac:(right; cbn; lia) ltac:(intros e; reflexivity))
    as (e & He & _ & Hrun).
  vm_compute in He. injection He as <-.
  exact Hrun.
Defined.

Lemma unclassified_failures_are_final_witness :
  doRequest unencodable (client 3) "POST" "/api/v1/consent/check"
    (Some (ConsentBody embedded_face)) (Some "kept") []
  = (Some (Errorf "failed to marshal request body: %w"
             "unsupported value: NaN"),
     Some "kept",
     [Attempted 0
        (Some (Errorf "failed to marshal request body: %w"
                 "unsupported value: NaN"))])
  /\ fst (fst (doRequest flaky (client 3) "GET" "/x" None (Some "kept") []))
     = Some (Errorf "failed to send request: %w" "connection refused").
Proof.
  split.
  - destruct (unclassified_failures_are_final unencodable (client 3) "POST"
                "/api/v1/consent/check" (Some (ConsentBody embedded_face))
                (Some "kept") []) as [Hstep _].
    destruct (Hstep 0 (seqZ 1 2) None) as [Hmarshal _].
    exact (Hmarshal (ConsentBody embedded_face) "unsupported value: NaN"
             eq_refl eq_refl).
  - destruct (doRequest flaky (client 3) "GET" "/x" None (Some "kept") [])
      as [[err result'] evs] eqn:Hrun.
    destruct (unclassified_failures_are_final flaky (client 3) "GET" "/x" None
                (Some "kept") []) as [_ Hfinal].
    apply (Hfinal err result' evs 1%nat _ _ Hrun).
    vm_compute in Hrun. injection Hrun as <- <- <-.
    vm_compute. reflexivity.
Defined.

Lemma PurchaseLicense_defaults_duration_witness :
  (exists sent rest,
      snd (PurchaseLicense (PurchaseResponse := string) (calm "ok")
             (client 3) (purchase 0) [])
      = Sent sent :: rest
      /\ req_Body sent = Some "purchase id-1 days 30")
  /\ (exists sent rest,
      snd (PurchaseLicense (PurchaseResponse := string) (calm "ok")
             (client 3) (purchase 7) [])
      = Sent sent :: rest
      /\ req_Body sent = Some "purchase id-1 days 7").
Proof.
  split.
  - destruct (PurchaseLicense (calm "ok") (client 3) (purchase 0) [])
      as [[req' r] evs] eqn:Hrun.
    destruct (PurchaseLicense_defaults_duration (calm "ok") (client 3)
                (purchase 0) [] req' r evs Hrun) as (_ & _ & _ & _ & _ & Hsent).
    vm_compute in Hrun. injection Hrun as <- _ _.
    destruct (Hsent "purchase id-1 days 30" ltac:(cbn; lia) eq_refl eq_refl)
      as (sent & rest & -> & _ & Hb).
    eauto.
  - destruct (PurchaseLicense (calm "ok") (client 3) (purchase 7) [])
      as [[req' r] evs] eqn:Hrun.
    destruct (PurchaseLicense_defaults_duration (calm "ok") (client 3)
                (purchase 7) [] req' r evs Hrun) as (_ & _ & _ & _ & _ & Hsent).
    vm_compute in Hrun. injection Hrun as <- _ _.
    destruct (Hsent "purchase id-1 days 7" ltac:(cbn; lia) eq_refl eq_refl)
      as (sent & rest & -> & _ & Hb).
    eauto.
Defined.
